(** * BotBuilder storage layer: [source/internal/data.ts]

    A shallow embedding of the key-value storage classes of BotBuilder
    ([BaseStorage], [CacheStorage], [FileStorage], [DualStorage]) together
    with [autoCatch] from [source/utility/common.ts], and the properties of
    the storage design that are checked against them.

    Layout:
    - [JsString]   : the JavaScript string methods the paths are built with;
    - [Js]         : JavaScript values, truthiness, template conversion and
                     the [JSON] interface of the runtime;
    - [Json]       : a codec implementing that interface;
    - [Control]    : exceptions, settled promises, method bodies, [autoCatch];
    - [FS]         : the part of Node's [fs/promises] the file store calls;
    - [BaseStorage]: the identifier resolver, the abstract store and the
                     operations every store inherits;
    - [CacheStorage], [FileStorage], [DualStorage] : the three stores;
    - the properties, each under the identifier of the design claim it
      settles. *)

From Stdlib Require Import ZArith Lia Ascii List Bool.
From stdpp Require Import base option list gmap strings pretty.

Local Open Scope Z_scope.

(* ===================================================================== *)
(** ** JavaScript strings *)
(* ===================================================================== *)

(** Strings are sequences of one-byte characters; the methods below are the
    ones [data.ts] applies to identifiers and paths. *)
Module JsString.

Definition length (s : string) : Z := Z.of_nat (String.length s).

(** [s.replace(/c/g, d)] for a single character [c]. *)
Fixpoint replaceAll (c d : ascii) (s : string) : string :=
  match s with
  | EmptyString => EmptyString
  | String a s' => String (if Ascii.eqb a c then d else a) (replaceAll c d s')
  end.

(** [s.startsWith(p)]. *)
Definition startsWith (s p : string) : bool := String.prefix p s.

(** [s.endsWith(p)]: [p] read backwards starts [s] read backwards. *)
Definition endsWith (s p : string) : bool :=
  String.prefix (String.rev p) (String.rev s).

(** Index normalisation of [slice]: a negative index counts from the end,
    and the result is clamped to [0 .. length]. *)
Definition clamp (len i : Z) : Z :=
  if i <? 0 then Z.max (len + i) 0 else Z.min i len.

(** [s.slice(start, end)]; [None] is an omitted [end]. *)
Definition slice (s : string) (start : Z) (end_ : option Z) : string :=
  let len := length s in
  let from := clamp len start in
  let to := clamp len (default len end_) in
  String.substring (Z.to_nat from) (Z.to_nat (to - from)) s.

Fixpoint lastIndexOf_from (c : ascii) (s : string) (i last : Z) : Z :=
  match s with
  | EmptyString => last
  | String a s' =>
      lastIndexOf_from c s' (i + 1) (if Ascii.eqb a c then i else last)
  end.

(** [s.lastIndexOf(c)] for a single character [c]; [-1] when absent. *)
Definition lastIndexOf (s : string) (c : ascii) : Z :=
  lastIndexOf_from c s 0 (-1).

(** [s.split(c)] for a single character [c]. *)
Fixpoint split_go (c : ascii) (cur : string) (s : string) : list string :=
  match s with
  | EmptyString => [String.rev cur]
  | String a s' =>
      if Ascii.eqb a c then String.rev cur :: split_go c EmptyString s'
      else split_go c (String a cur) s'
  end.
Definition split (s : string) (c : ascii) : list string :=
  split_go c EmptyString s.

(** Does the character occur in the string? *)
Fixpoint includes (s : string) (c : ascii) : bool :=
  match s with
  | EmptyString => false
  | String a s' => Ascii.eqb a c || includes s' c
  end.

End JsString.


(* ===================================================================== *)
(** ** JavaScript values *)
(* ===================================================================== *)

Module Js.

Local Set Warnings "-register-all".

(** The payloads a store can hold.  Numbers are the integers; an object is
    its list of own properties in insertion order.  [VUndefined] doubles as
    the absent result of a lookup, as in the source ([T | undefined]). *)
Inductive value : Type :=
| VUndefined
| VNull
| VBool (b : bool)
| VNum (n : Z)
| VStr (s : string)
| VArr (elems : list value)
| VObj (props : list (string * value)).

(** The left operand of [??] falls through exactly on [null] and
    [undefined]. *)
Definition nullish (v : value) : bool :=
  match v with
  | VUndefined | VNull => true
  | _ => false
  end.

(** [a ?? b], with [b] evaluated only on demand. *)
Definition coalesce {A} (v : value) (k_value : value -> A) (k_else : A) : A :=
  if nullish v then k_else else k_value v.

(** The template literal [`${data}`].  A number is printed as its decimal
    numeral, which is what the runtime prints for the integers a double
    holds exactly (magnitude below 2^53); above 1e21 the runtime switches to
    exponent form and the two differ. *)
Fixpoint toString (v : value) : string :=
  match v with
  | VUndefined => "undefined"
  | VNull => "null"
  | VBool true => "true"
  | VBool false => "false"
  | VNum n => pretty n
  | VStr s => s
  | VArr elems =>
      String.concat ","
        (List.map (fun x => if nullish x then "" else toString x) elems)
  | VObj _ => "[object Object]"
  end.

(** A JavaScript array, [T[]]. *)
Abbreviation Array := list (only parsing).

(** What a call hands back: a synchronous method returns the bare value,
    an [async] method a promise for it.  Only fulfilled promises occur: no
    [has] of the three stores rejects. *)
Inductive Awaitable (A : Type) : Type :=
| Plain (a : A)
| Promise (a : A).
Arguments Plain {A} a.
Arguments Promise {A} a.

(** [await x]. *)
Definition await {A} (x : Awaitable A) : A :=
  match x with
  | Plain a => a
  | Promise a => a
  end.

(** Truthiness of an un-awaited boolean result, as tested by [if (x)]: a
    promise is an object, and every object is truthy. *)
Definition truthy (x : Awaitable bool) : bool :=
  match x with
  | Plain b => b
  | Promise _ => true
  end.

(** The two functions of the runtime's [JSON] object that the file store
    calls.  [JSON_stringify v] is [JSON.stringify(v, null, "\t")], [None]
    when it yields [undefined]; [JSON_parse s] is [JSON.parse(s)], [None]
    when it throws a [SyntaxError]. *)
Class JSON : Type := {
  JSON_stringify : value -> option string;
  JSON_parse : string -> option value;
}.

End Js.
Export Js.

(* ===================================================================== *)
(** ** A JSON codec *)
(* ===================================================================== *)

(** An instance of the [JSON] interface: the serialisation algorithm of
    [JSON.stringify] with a tab as indentation unit, and a reader for the
    JSON grammar.  Numerals with a fraction or an exponent and [\u] escapes
    above code 255 denote values outside [value] and are not accepted. *)
Module Json.

Definition dquote : ascii := "034"%char.
Definition backslash : ascii := "\"%char.
Definition tab : string := String "009"%char EmptyString.
Definition newline : string := String "010"%char EmptyString.

Definition hexdigit (n : nat) : ascii :=
  match String.get n "0123456789abcdef" with
  | Some c => c
  | None => "0"%char
  end.

(** The body of [QuoteJSONString]. *)
Fixpoint escape (s : string) : string :=
  match s with
  | EmptyString => EmptyString
  | String c r =>
      let n := nat_of_ascii c in
      (if Ascii.eqb c dquote then String backslash (String dquote EmptyString)
       else if Ascii.eqb c backslash then String backslash (String backslash EmptyString)
       else if Nat.eqb n 8 then String backslash "b"
       else if Nat.eqb n 9 then String backslash "t"
       else if Nat.eqb n 10 then String backslash "n"
       else if Nat.eqb n 12 then String backslash "f"
       else if Nat.eqb n 13 then String backslash "r"
       else if Nat.ltb n 32 then
         String backslash
           ("u00" +:+ String (hexdigit (Nat.div n 16))
                        (String (hexdigit (Nat.modulo n 16)) EmptyString))
       else String c EmptyString) +:+ escape r
  end.

Definition quoteString (s : string) : string :=
  String dquote (escape s +:+ String dquote EmptyString).

(** [SerializeJSONProperty] at indentation [indent]; [None] is the
    [undefined] result. *)
Fixpoint serialize (indent : string) (v : value) : option string :=
  match v with
  | VUndefined => None
  | VNull => Some "null"
  | VBool b => Some (if b then "true" else "false")
  | VNum n => Some (pretty n)
  | VStr s => Some (quoteString s)
  | VArr elems =>
      let inner := indent +:+ tab in
      let partial :=
        List.map (fun x => default "null" (serialize inner x)) elems in
      match partial with
      | [] => Some "[]"
      | _ =>
          Some ("[" +:+ newline +:+ inner
                +:+ String.concat ("," +:+ newline +:+ inner) partial
                +:+ newline +:+ indent +:+ "]")
      end
  | VObj props =>
      let inner := indent +:+ tab in
      let partial :=
        List.flat_map
          (fun kx =>
             match kx with
             | (k, x) =>
                 match serialize inner x with
                 | Some sx => [quoteString k +:+ ": " +:+ sx]
                 | None => []
                 end
             end) props in
      match partial with
      | [] => Some "{}"
      | _ =>
          Some ("{" +:+ newline +:+ inner
                +:+ String.concat ("," +:+ newline +:+ inner) partial
                +:+ newline +:+ indent +:+ "}")
      end
  end.

Definition stringify (v : value) : option string := serialize EmptyString v.

(** *** Reading *)

Definition is_ws (c : ascii) : bool :=
  let n := nat_of_ascii c in
  Nat.eqb n 32 || Nat.eqb n 9 || Nat.eqb n 10 || Nat.eqb n 13.

Fixpoint skip_ws (s : string) : string :=
  match s with
  | String c r => if is_ws c then skip_ws r else s
  | EmptyString => s
  end.

Fixpoint strip_prefix (p s : string) : option string :=
  match p, s with
  | EmptyString, _ => Some s
  | String a p', String b s' => if Ascii.eqb a b then strip_prefix p' s' else None
  | String _ _, EmptyString => None
  end.

Fixpoint read_digits (s : string) (acc : Z) : Z * string :=
  match s with
  | String c r =>
      match Ascii.is_nat c with
      | Some d => read_digits r (acc * 10 + Z.of_nat d)
      | None => (acc, s)
      end
  | EmptyString => (acc, s)
  end.

(** An integer numeral: [0] or a non-empty digit run without leading zero,
    not followed by a fraction or an exponent. *)
Definition read_nat (s : string) : option (Z * string) :=
  match s with
  | String c r =>
      match Ascii.is_nat c with
      | Some O => Some (0, r)
      | Some d => Some (read_digits r (Z.of_nat d))
      | None => None
      end
  | EmptyString => None
  end.

Definition starts_fraction (s : string) : bool :=
  match s with
  | String c _ => Ascii.eqb c "." || Ascii.eqb c "e" || Ascii.eqb c "E"
  | EmptyString => false
  end.

Definition read_number (s : string) : option (value * string) :=
  let signed :=
    match s with
    | String c r =>
        if Ascii.eqb c "-" then
          match read_nat r with
          | Some (n, r') => Some (- n, r')
          | None => None
          end
        else read_nat s
    | EmptyString => None
    end in
  match signed with
  | Some (n, r) => if starts_fraction r then None else Some (VNum n, r)
  | None => None
  end.

Definition hexval (c : ascii) : option nat :=
  match String.index 0 (String c EmptyString) "0123456789abcdef" with
  | Some n => Some n
  | None =>
      match String.index 0 (String c EmptyString) "0123456789ABCDEF" with
      | Some n => Some n
      | None => None
      end
  end.

(** The characters of a string literal after its opening quote; [acc]
    holds the characters read so far, last first. *)
Fixpoint read_chars (s : string) (acc : string) : option (string * string) :=
  match s with
  | EmptyString => None
  | String c r =>
      if Ascii.eqb c dquote then Some (String.rev acc, r)
      else if Ascii.eqb c backslash then
        match r with
        | String e r1 =>
            if Ascii.eqb e dquote then read_chars r1 (String dquote acc)
            else if Ascii.eqb e backslash then read_chars r1 (String backslash acc)
            else if Ascii.eqb e "/" then read_chars r1 (String "/" acc)
            else if Ascii.eqb e "b" then read_chars r1 (String "008" acc)
            else if Ascii.eqb e "f" then read_chars r1 (String "012" acc)
            else if Ascii.eqb e "n" then read_chars r1 (String "010" acc)
            else if Ascii.eqb e "r" then read_chars r1 (String "013" acc)
            else if Ascii.eqb e "t" then read_chars r1 (String "009" acc)
            else if Ascii.eqb e "u" then
              match r1 with
              | String h1 (String h2 (String h3 (String h4 r2))) =>
                  match hexval h1, hexval h2, hexval h3, hexval h4 with
                  | Some O, Some O, Some a, Some b =>
                      read_chars r2 (String (ascii_of_nat (16 * a + b)) acc)
                  | _, _, _, _ => None
                  end
              | _ => None
              end
            else None
        | EmptyString => None
        end
      else if Nat.ltb (nat_of_ascii c) 32 then None
      else read_chars r (String c acc)
  end.

Definition read_string (s : string) : option (string * string) :=
  match s with
  | String c r => if Ascii.eqb c dquote then read_chars r EmptyString else None
  | EmptyString => None
  end.

Section Compound.
(** The reader of one value, at the nesting depth below. *)
Variable read_value : string -> option (value * string).

(** Elements after [[], up to and including the closing bracket. *)
Fixpoint read_elements (fuel : nat) (s : string) (acc : list value)
  : option (value * string) :=
  match fuel with
  | O => None
  | S fuel' =>
      match read_value s with
      | Some (v, String c r) =>
          if Ascii.eqb c "," then read_elements fuel' r (v :: acc)
          else if Ascii.eqb c "]" then Some (VArr (List.rev (v :: acc)), r)
          else None
      | _ => None
      end
  end.

(** Members after [{], up to and including the closing brace. *)
Fixpoint read_members (fuel : nat) (s : string) (acc : list (string * value))
  : option (value * string) :=
  match fuel with
  | O => None
  | S fuel' =>
      match read_string (skip_ws s) with
      | Some (k, r) =>
          match skip_ws r with
          | String c r1 =>
              if Ascii.eqb c ":" then
                match read_value r1 with
                | Some (v, String d r2) =>
                    if Ascii.eqb d "," then read_members fuel' r2 ((k, v) :: acc)
                    else if Ascii.eqb d "}" then
                      Some (VObj (List.rev ((k, v) :: acc)), r2)
                    else None
                | _ => None
                end
              else None
          | EmptyString => None
          end
      | None => None
      end
  end.
End Compound.

(** One value with the white space around it. *)
Fixpoint read_value (fuel : nat) (s : string) : option (value * string) :=
  match fuel with
  | O => None
  | S fuel' =>
      let after r := match r with
                     | Some (v, rest) => Some (v, skip_ws rest)
                     | None => None
                     end in
      match skip_ws s with
      | EmptyString => None
      | String c r as s1 =>
          if Ascii.eqb c "{" then
            match skip_ws r with
            | String d r1 as r0 =>
                if Ascii.eqb d "}" then Some (VObj [], skip_ws r1)
                else after (read_members (read_value fuel') fuel' r0 [])
            | EmptyString => None
            end
          else if Ascii.eqb c "[" then
            match skip_ws r with
            | String d r1 as r0 =>
                if Ascii.eqb d "]" then Some (VArr [], skip_ws r1)
                else after (read_elements (read_value fuel') fuel' r0 [])
            | EmptyString => None
            end
          else if Ascii.eqb c dquote then
            match read_string s1 with
            | Some (str, rest) => Some (VStr str, skip_ws rest)
            | None => None
            end
          else
            match strip_prefix "true" s1, strip_prefix "false" s1,
                  strip_prefix "null" s1 with
            | Some rest, _, _ => Some (VBool true, skip_ws rest)
            | _, Some rest, _ => Some (VBool false, skip_ws rest)
            | _, _, Some rest => Some (VNull, skip_ws rest)
            | None, None, None => after (read_number s1)
            end
      end
  end.

(** The whole text must be one value. *)
Definition parse (s : string) : option value :=
  match read_value (S (String.length s)) s with
  | Some (v, EmptyString) => Some v
  | _ => None
  end.

End Json.

(** The codec as the runtime's [JSON] object. *)
#[export] Instance NodeJSON : JSON :=
  {| JSON_stringify := Json.stringify; JSON_parse := Json.parse |}.

(* ===================================================================== *)
(** ** Exceptions, promises and [autoCatch] *)
(* ===================================================================== *)

Module Control.

(** System error codes of the filesystem calls. *)
Inductive errno : Type := ENOENT | ENOTDIR | EISDIR | EEXIST.

(** What can be thrown, or a promise be rejected with. *)
Inductive error : Type :=
| SyntaxError
| TypeError
| SystemError (code : errno)
| UserError (message : string).

(** A settled promise. *)
Inductive Settled (A : Type) : Type :=
| Fulfilled (content : A)
| Rejected (reason : error).
Arguments Fulfilled {A} content.
Arguments Rejected {A} reason.

(** The end of a call: it returned or it threw. *)
Inductive outcome (A : Type) : Type :=
| Returned (a : A)
| Thrown (e : error).
Arguments Returned {A} a.
Arguments Thrown {A} e.

(** A method body over the mutable state [S]: it ends with an outcome and
    leaves a state behind, also when it throws. *)
Definition M (S A : Type) : Type := S -> outcome A * S.

Definition ret {S A} (a : A) : M S A := fun s => (Returned a, s).
Definition throw {S A} (e : error) : M S A := fun s => (Thrown e, s).
Definition bind {S A B} (m : M S A) (k : A -> M S B) : M S B :=
  fun s =>
    match m s with
    | (Returned a, s') => k a s'
    | (Thrown e, s') => (Thrown e, s')
    end.

(** A call that hands back a promise, run to the point where the promise
    has settled. *)
Definition Async (S A : Type) : Type := S -> Settled A * S.

(** [common.ts]: the two shapes of [AutoCatchResult<T>]. *)
Inductive AutoCatchResult (A : Type) : Type :=
| AutoCatchSuccess (content : A)
| AutoCatchFailure (error_ : error).
Arguments AutoCatchSuccess {A} content.
Arguments AutoCatchFailure {A} error_.

(** The [result] field. *)
Definition result {A} (r : AutoCatchResult A) : bool :=
  match r with
  | AutoCatchSuccess _ => true
  | AutoCatchFailure _ => false
  end.

(** [common.ts], [autoCatch]: awaits the promise inside [try]; a rejection
    is caught and turned into the failure record, so the call itself always
    returns. *)
Definition autoCatch {S A} (promise : Async S A) : M S (AutoCatchResult A) :=
  fun s =>
    match promise s with
    | (Fulfilled content, s') => (Returned (AutoCatchSuccess content), s')
    | (Rejected e, s') => (Returned (AutoCatchFailure e), s')
    end.

End Control.
Export Control.

(** [let* x := await m in k]: run [m], and continue with its value unless it
    threw. *)
Notation "'let*' x := m 'in' k" := (bind m (fun x => k))
  (at level 10, x pattern, m at level 100, k at level 200).

(* ===================================================================== *)
(** ** The filesystem behind [fs/promises] *)
(* ===================================================================== *)

(** A directory tree without links.  A node is addressed by the list of names
    leading to it from the root; the root itself is the empty list and is
    always a directory.  Relative paths start at the working directory. *)
Module FS.

Inductive node : Type :=
| File (content : string)
| Dir.

Record filesystem : Type := {
  cwd : list string;
  nodes : gmap (list string) node;
}.

Record Dirent : Type := { name : string; isFile : bool }.

Definition node_at (fs : filesystem) (p : list string) : option node :=
  match p with
  | [] => Some Dir
  | _ => nodes fs !! p
  end.

Definition is_dir (fs : filesystem) (p : list string) : bool :=
  match node_at fs p with
  | Some Dir => true
  | _ => false
  end.

(** The names of a path; runs of slashes count as one. *)
Definition components (path : string) : list string :=
  List.filter (fun seg => negb (String.eqb seg "")) (JsString.split path "/").

(** One step of pathname resolution from the directory [cur]. *)
Definition step (cur : list string) (seg : string) : list string :=
  if String.eqb seg "." then cur
  else if String.eqb seg ".." then removelast cur
  else cur ++ [seg].

(** Pathname resolution: every name is looked up in a directory, so each
    node passed through must be one.  The node arrived at need not exist. *)
Fixpoint walk (fs : filesystem) (cur : list string) (segs : list string)
  : option (list string) :=
  match segs with
  | [] => Some cur
  | seg :: rest =>
      if is_dir fs cur then walk fs (step cur seg) rest else None
  end.

Definition locate (fs : filesystem) (path : string) : option (list string) :=
  if String.eqb path "" then None
  else walk fs (if JsString.startsWith path "/" then [] else cwd fs)
            (components path).

(** A path with a trailing slash names a directory. *)
Definition names_directory (path : string) : bool :=
  JsString.endsWith path "/".

Definition put (p : list string) (n : node) (fs : filesystem) : filesystem :=
  {| cwd := cwd fs; nodes := <[p := n]> (nodes fs) |}.

Definition remove (p : list string) (fs : filesystem) : filesystem :=
  {| cwd := cwd fs; nodes := delete p (nodes fs) |}.

(** [FS.readFile(path, { encoding: "utf8" })]. *)
Definition readFile (path : string) : Async filesystem string :=
  fun fs =>
    match locate fs path with
    | None => (Rejected (SystemError ENOENT), fs)
    | Some p =>
        match node_at fs p with
        | Some (File content) =>
            if names_directory path then (Rejected (SystemError ENOTDIR), fs)
            else (Fulfilled content, fs)
        | Some Dir => (Rejected (SystemError EISDIR), fs)
        | None => (Rejected (SystemError ENOENT), fs)
        end
    end.

(** [FS.writeFile(path, data, { encoding: "utf8" })]: creates or replaces
    a regular file in an existing directory.  [data] is [None] for
    [undefined], which the call refuses. *)
Definition writeFile (path : string) (data : option string)
  : Async filesystem unit :=
  fun fs =>
    match data with
    | None => (Rejected TypeError, fs)
    | Some raw =>
        match locate fs path with
        | None => (Rejected (SystemError ENOENT), fs)
        | Some p =>
            match node_at fs p with
            | Some Dir => (Rejected (SystemError EISDIR), fs)
            | Some (File _) =>
                if names_directory path then (Rejected (SystemError ENOTDIR), fs)
                else (Fulfilled tt, put p (File raw) fs)
            | None =>
                if names_directory path then (Rejected (SystemError EISDIR), fs)
                else (Fulfilled tt, put p (File raw) fs)
            end
        end
    end.

(** [FS.mkdir(path)] without [recursive]: creates the last directory of
    the path only, and fails when something is there already. *)
Definition mkdir (path : string) : Async filesystem unit :=
  fun fs =>
    match locate fs path with
    | None => (Rejected (SystemError ENOENT), fs)
    | Some p =>
        match node_at fs p with
        | Some _ => (Rejected (SystemError EEXIST), fs)
        | None => (Fulfilled tt, put p Dir fs)
        end
    end.

(** [FS.rm(path)] without options: removes a regular file. *)
Definition rm (path : string) : Async filesystem unit :=
  fun fs =>
    match locate fs path with
    | None => (Rejected (SystemError ENOENT), fs)
    | Some p =>
        match node_at fs p with
        | Some (File _) =>
            if names_directory path then (Rejected (SystemError ENOTDIR), fs)
            else (Fulfilled tt, remove p fs)
        | Some Dir => (Rejected (SystemError EISDIR), fs)
        | None => (Rejected (SystemError ENOENT), fs)
        end
    end.

(** The entries directly inside the directory at [p]. *)
Definition entries (fs : filesystem) (p : list string) : list Dirent :=
  omap (fun kn : list string * node =>
          match last (fst kn) with
          | Some nm =>
              if decide (fst kn = p ++ [nm]) then
                Some {| name := nm;
                        isFile := match snd kn with File _ => true | Dir => false end |}
              else None
          | None => None
          end)
       (map_to_list (nodes fs)).

(** [FS.readdir(path, { withFileTypes: true })]. *)
Definition readdir (path : string) : Async filesystem (list Dirent) :=
  fun fs =>
    match locate fs path with
    | None => (Rejected (SystemError ENOENT), fs)
    | Some p =>
        match node_at fs p with
        | Some Dir => (Fulfilled (entries fs p), fs)
        | Some (File _) => (Rejected (SystemError ENOTDIR), fs)
        | None => (Rejected (SystemError ENOENT), fs)
        end
    end.

(** A tree given by its nodes, with the root as working directory. *)
Definition of_list (l : list (list string * node)) : filesystem :=
  {| cwd := []; nodes := list_to_map l |}.

End FS.

(* ===================================================================== *)
(** ** [data.ts]: options, identifier resolver, abstract store *)
(* ===================================================================== *)

(** [StorageOptions]; [None] is a field left out. *)
Record StorageOptions : Type := {
  extension : option string;
  noCache : option bool;
  noFile : option bool;
}.

Module BaseStorage.

Definition _defaultOptions : StorageOptions :=
  {| extension := Some "json"; noCache := None; noFile := None |}.

Definition _rootPath : string := "./data".

(** [_dirPath]: converts a raw directory to a file path. *)
Definition _dirPath (dir : string) : string :=
  let dir := JsString.replaceAll "\" "/" dir in
  let dir := if JsString.startsWith dir "/" then JsString.slice dir 1 None else dir in
  let dir := if negb (JsString.endsWith dir "/") then dir +:+ "/" else dir in
  _rootPath +:+ "/" +:+ dir.

(** [_idPath]: converts a raw identifier to a file path.  The default of
    the second parameter applies when the argument is [undefined]. *)
Definition _idPath (id : string) (extension_ : option string) : string :=
  let extension_ :=
    default (default "json" (extension _defaultOptions)) extension_ in
  let id := JsString.replaceAll "\" "/" id in
  let id := if JsString.startsWith id "/" then JsString.slice id 1 None else id in
  if JsString.endsWith id extension_ then _rootPath +:+ "/" +:+ id
  else _rootPath +:+ "/" +:+ id +:+ "." +:+ extension_.

(** [options?.extension]. *)
Definition extension_of (options : option StorageOptions) : option string :=
  match options with
  | Some o => extension o
  | None => None
  end.

(** The condition [options?.noCache]. *)
Definition noCache_of (options : option StorageOptions) : bool :=
  match options with
  | Some o => default false (noCache o)
  | None => false
  end.

(** The condition [options && options.noFile]. *)
Definition noFile_of (options : option StorageOptions) : bool :=
  match options with
  | Some o => default false (noFile o)
  | None => false
  end.

(** The five abstract methods, over the state [S] a store works on.  [has]
    is the one method the class also uses without [await], so its result
    keeps the shape the store hands back. *)
Record Store (S : Type) : Type := {
  has : string -> option StorageOptions -> M S (Awaitable bool);
  get : string -> option StorageOptions -> M S value;
  set : string -> value -> option StorageOptions -> M S bool;
  del : string -> option StorageOptions -> M S bool;
  list : string -> option StorageOptions -> M S (Array (string * value));
}.
Arguments has {S} _ _ _.
Arguments get {S} _ _ _.
Arguments set {S} _ _ _ _.
Arguments del {S} _ _ _.
Arguments list {S} _ _ _.

Section Inherited.
Context {S : Type} (this : Store S).

(** Caller-supplied functions; the store they are handed is the state
    they run on. *)
Definition DataAction : Type := value -> string -> M S unit.
Definition DataModifier : Type := value -> string -> M S value.
Definition DataPredicate : Type := value -> string -> M S bool.

(** [for (const x of xs) result &&= await f(x)]: the right-hand side is
    evaluated only while [result] is true. *)
Fixpoint and_assign {A} (f : A -> M S bool) (xs : Array A) (result_ : bool)
  : M S bool :=
  match xs with
  | [] => ret result_
  | x :: xs' =>
      let* result_ := (if result_ then f x else ret result_) in
      and_assign f xs' result_
  end.

(** [for (const x of xs) result ||= await f(x)]: the right-hand side is
    evaluated only while [result] is false. *)
Fixpoint or_assign {A} (f : A -> M S bool) (xs : Array A) (result_ : bool)
  : M S bool :=
  match xs with
  | [] => ret result_
  | x :: xs' =>
      let* result_ := (if result_ then ret result_ else f x) in
      or_assign f xs' result_
  end.

(** [for (const x of xs) await f(x)]. *)
Fixpoint for_each {A} (f : A -> M S unit) (xs : Array A) : M S unit :=
  match xs with
  | [] => ret tt
  | x :: xs' => let* _ := f x in for_each f xs'
  end.

(** [await this.has(id, options)]. *)
Definition await_has (id : string) (options : option StorageOptions)
  : M S bool :=
  let* present := has this id options in ret (await present).

Definition hasAll (ids : Array string) (options : option StorageOptions)
  : M S bool :=
  and_assign (fun id => await_has id options) ids true.

Definition hasAny (ids : Array string) (options : option StorageOptions)
  : M S bool :=
  or_assign (fun id => await_has id options) ids false.

Fixpoint getAll_from (ids : Array string) (options : option StorageOptions)
    (result_ : Array (string * value)) : M S (Array (string * value)) :=
  match ids with
  | [] => ret result_
  | id :: ids' =>
      let* data := get this id options in
      getAll_from ids' options (result_ ++ [(id, data)])
  end.

Definition getAll (ids : Array string) (options : option StorageOptions)
  : M S (Array (string * value)) :=
  getAll_from ids options [].

Definition setAll (list_ : Array (string * value))
    (options : option StorageOptions) : M S bool :=
  and_assign (fun entry => set this (fst entry) (snd entry) options) list_ true.

Definition delAll (ids : Array string) (options : option StorageOptions)
  : M S bool :=
  and_assign (fun id => del this id options) ids true.

Definition ids (dir : string) (options : option StorageOptions)
  : M S (Array string) :=
  let* l := list this dir options in ret (List.map fst l).

Definition values (dir : string) (options : option StorageOptions)
  : M S (Array value) :=
  let* l := list this dir options in ret (List.map snd l).

(** [ensure]: the condition is [this.has(id, options)] itself, not its
    awaited value. *)
Definition ensure (id : string) (fallback : value)
    (options : option StorageOptions) : M S value :=
  let* present := has this id options in
  if truthy present then get this id options
  else
    let* _ := set this id fallback options in
    ret fallback.

(** [expect]: [has] is called with the identifier alone. *)
Definition expect (id : string) (predicate : DataPredicate)
    (options : option StorageOptions) : M S bool :=
  let* present := await_has id None in
  if present then
    let* data := get this id options in
    predicate data id
  else ret false.

Definition expectAll (ids : Array string) (predicate : DataPredicate)
    (options : option StorageOptions) : M S bool :=
  and_assign (fun id => expect id predicate options) ids true.

Definition expectAny (ids : Array string) (predicate : DataPredicate)
    (options : option StorageOptions) : M S bool :=
  or_assign (fun id => expect id predicate options) ids false.

Definition action (id : string) (action_ : DataAction)
    (options : option StorageOptions) : M S unit :=
  let* present := await_has id options in
  if present then
    let* data := get this id options in
    action_ data id
  else ret tt.

Definition actionIf (id : string) (action_ : DataAction)
    (predicate : DataPredicate) (options : option StorageOptions)
  : M S unit :=
  let* ok := expect id predicate options in
  if ok then
    let* data := get this id options in
    action_ data id
  else ret tt.

Definition actionAll (ids : Array string) (action_ : DataAction)
    (options : option StorageOptions) : M S unit :=
  for_each (fun id => action id action_ options) ids.

Definition actionAllIf (ids : Array string) (action_ : DataAction)
    (predicate : DataPredicate) (options : option StorageOptions)
  : M S unit :=
  for_each (fun id => actionIf id action_ predicate options) ids.

Definition modify (id : string) (modify_ : DataModifier)
    (options : option StorageOptions) : M S bool :=
  let* present := await_has id options in
  if present then
    let* old := get this id options in
    let* data := modify_ old id in
    set this id data options
  else ret false.

Definition modifyIf (id : string) (modify_ : DataModifier)
    (predicate : DataPredicate) (options : option StorageOptions)
  : M S bool :=
  let* ok := expect id predicate options in
  if ok then
    let* old := get this id options in
    let* data := modify_ old id in
    set this id data options
  else ret false.

Definition modifyAll (ids : Array string) (modify_ : DataModifier)
    (options : option StorageOptions) : M S bool :=
  and_assign (fun id => modify id modify_ options) ids true.

Definition modifyAllIf (ids : Array string) (modify_ : DataModifier)
    (predicate : DataPredicate) (options : option StorageOptions)
  : M S bool :=
  and_assign (fun id => modifyIf id modify_ predicate options) ids true.

End Inherited.

End BaseStorage.

Import BaseStorage (_idPath, _dirPath, _rootPath, extension_of, noCache_of,
  noFile_of, Store).

(* ===================================================================== *)
(** ** [CacheStorage] *)
(* ===================================================================== *)

(** [Map<string, unknown>]: the entries in insertion order, one per key. *)
Module JsMap.

Definition t : Type := list (string * value).

Fixpoint has (key : string) (m : t) : bool :=
  match m with
  | [] => false
  | (k, _) :: m' => if String.eqb k key then true else has key m'
  end.

(** [m.get(key)], [undefined] for a missing key. *)
Fixpoint get (key : string) (m : t) : value :=
  match m with
  | [] => VUndefined
  | (k, v) :: m' => if String.eqb k key then v else get key m'
  end.

(** [m.set(key, v)]: an existing key keeps its place. *)
Fixpoint set (key : string) (v : value) (m : t) : t :=
  match m with
  | [] => [(key, v)]
  | (k, w) :: m' =>
      if String.eqb k key then (k, v) :: m' else (k, w) :: set key v m'
  end.

(** The map after [m.delete(key)]; the call returns [has key m]. *)
Fixpoint delete (key : string) (m : t) : t :=
  match m with
  | [] => []
  | (k, w) :: m' =>
      if String.eqb k key then m' else (k, w) :: delete key m'
  end.

End JsMap.

Module CacheStorage.

(** The private field [__storage]. *)
Definition state : Type := JsMap.t.

Definition has (id : string) (options : option StorageOptions) : M state bool :=
  if noCache_of options then ret false
  else
    let path := _idPath id (extension_of options) in
    fun __storage => (Returned (JsMap.has path __storage), __storage).

Definition get (id : string) (options : option StorageOptions) : M state value :=
  if noCache_of options then ret VUndefined
  else
    let path := _idPath id (extension_of options) in
    fun __storage => (Returned (JsMap.get path __storage), __storage).

Definition set (id : string) (data : value) (options : option StorageOptions)
  : M state bool :=
  if noCache_of options then ret false
  else
    let path := _idPath id (extension_of options) in
    fun __storage =>
      let __storage := JsMap.set path data __storage in
      (Returned (JsMap.has path __storage), __storage).

Definition del (id : string) (options : option StorageOptions) : M state bool :=
  if noCache_of options then ret false
  else
    let path := _idPath id (extension_of options) in
    fun __storage =>
      (Returned (JsMap.has path __storage), JsMap.delete path __storage).

Definition list (dir : string) (options : option StorageOptions)
  : M state (Array (string * value)) :=
  if noCache_of options then ret []
  else
    let path := _dirPath dir in
    fun __storage =>
      (Returned (List.filter (fun kv => JsString.startsWith (fst kv) path) __storage),
       __storage).

(** The methods are synchronous: [has] hands back a bare boolean. *)
Definition store : Store state :=
  {| BaseStorage.has := fun id options => let* b := has id options in ret (Plain b);
     BaseStorage.get := get;
     BaseStorage.set := set;
     BaseStorage.del := del;
     BaseStorage.list := list |}.

End CacheStorage.

(* ===================================================================== *)
(** ** [FileStorage] *)
(* ===================================================================== *)

Module FileStorage.
Section WithJSON.
Context {J : JSON}.

Definition state : Type := FS.filesystem.

(** [options && options.extension && options.extension !== "json"]. *)
Definition raw_extension (options : option StorageOptions) : bool :=
  match options with
  | None => false
  | Some o =>
      match extension o with
      | None => false
      | Some e => negb (String.eqb e "") && negb (String.eqb e "json")
      end
  end.

(** [!options || !options.extension || options.extension === "json"]. *)
Definition json_extension (options : option StorageOptions) : bool :=
  match options with
  | None => true
  | Some o =>
      match extension o with
      | None => true
      | Some e => String.eqb e "" || String.eqb e "json"
      end
  end.

Definition has (id : string) (options : option StorageOptions) : M state bool :=
  if noFile_of options then ret false
  else
    let path := _idPath id (extension_of options) in
    let* r := autoCatch (FS.readFile path) in
    ret (result r).

Definition get (id : string) (options : option StorageOptions) : M state value :=
  if noFile_of options then ret VUndefined
  else
    let path := _idPath id (extension_of options) in
    let* r := autoCatch (FS.readFile path) in
    match r with
    | AutoCatchFailure _ => ret VUndefined
    | AutoCatchSuccess content =>
        if raw_extension options then ret (VStr content)
        else
          match JSON_parse content with
          | Some data => ret data
          | None => throw SyntaxError
          end
    end.

Definition set (id : string) (data : value) (options : option StorageOptions)
  : M state bool :=
  if noFile_of options then ret false
  else
    let path := _idPath id (extension_of options) in
    let json := json_extension options in
    let raw := if json then JSON_stringify data else Some (toString data) in
    let* _ := autoCatch
                (FS.mkdir (JsString.slice path 0
                             (Some (JsString.lastIndexOf path "/")))) in
    let* r := autoCatch (FS.writeFile path raw) in
    ret (result r).

Definition del (id : string) (options : option StorageOptions) : M state bool :=
  if noFile_of options then ret false
  else
    let path := _idPath id (extension_of options) in
    let* r := autoCatch (FS.rm path) in
    ret (result r).

(** The loop of [list] over the directory entries. *)
Fixpoint list_entries (path : string) (options : option StorageOptions)
    (content : Array FS.Dirent) (output : Array (string * value))
  : M state (Array (string * value)) :=
  match content with
  | [] => ret output
  | dirent :: rest =>
      if negb (FS.isFile dirent) then list_entries path options rest output
      else
        let id := path +:+ FS.name dirent in
        let* data := get id options in
        list_entries path options rest (output ++ [(id, data)])
  end.

Definition list (dir : string) (options : option StorageOptions)
  : M state (Array (string * value)) :=
  if noFile_of options then ret []
  else
    let path := _dirPath dir in
    let* r := autoCatch (FS.readdir path) in
    match r with
    | AutoCatchFailure _ => ret []
    | AutoCatchSuccess content => list_entries path options content []
    end.

(** Every method is [async]: [has] hands back a promise. *)
Definition store : Store state :=
  {| BaseStorage.has := fun id options => let* b := has id options in ret (Promise b);
     BaseStorage.get := get;
     BaseStorage.set := set;
     BaseStorage.del := del;
     BaseStorage.list := list |}.

End WithJSON.
End FileStorage.

(* ===================================================================== *)
(** ** [DualStorage] *)
(* ===================================================================== *)

Module DualStorage.
Section WithJSON.
Context {J : JSON}.

(** The two private fields: what the cache holds and what the file store
    works on. *)
Record state : Type := {
  __cache : CacheStorage.state;
  __file : FileStorage.state;
}.

(** A call of a method of [this.__cache]. *)
Definition on_cache {A} (m : M CacheStorage.state A) : M state A :=
  fun s =>
    match m (__cache s) with
    | (r, c) => (r, {| __cache := c; __file := __file s |})
    end.

(** An awaited call of a method of [this.__file]. *)
Definition on_file {A} (m : M FileStorage.state A) : M state A :=
  fun s =>
    match m (__file s) with
    | (r, f) => (r, {| __cache := __cache s; __file := f |})
    end.

Definition has (id : string) (options : option StorageOptions) : M state bool :=
  let* hit := on_cache (CacheStorage.has id options) in
  if hit then ret true else on_file (FileStorage.has id options).

Definition get (id : string) (options : option StorageOptions) : M state value :=
  let* cached := on_cache (CacheStorage.get id options) in
  coalesce cached ret (on_file (FileStorage.get id options)).

Definition set (id : string) (data : value) (options : option StorageOptions)
  : M state bool :=
  let* stored := on_cache (CacheStorage.set id data options) in
  if stored then on_file (FileStorage.set id data options) else ret false.

Definition del (id : string) (options : option StorageOptions) : M state bool :=
  let* removed := on_cache (CacheStorage.del id options) in
  if removed then on_file (FileStorage.del id options) else ret false.

(** The [Set] the two listings pass through holds freshly built pairs, which
    are distinct objects: nothing is dropped. *)
Definition list (dir : string) (options : option StorageOptions)
  : M state (Array (string * value)) :=
  let* cached := on_cache (CacheStorage.list dir options) in
  let* stored := on_file (FileStorage.list dir options) in
  ret (cached ++ stored).

Definition store : Store state :=
  {| BaseStorage.has := fun id options => let* b := has id options in ret (Promise b);
     BaseStorage.get := get;
     BaseStorage.set := set;
     BaseStorage.del := del;
     BaseStorage.list := list |}.

End WithJSON.
End DualStorage.

(* ===================================================================== *)
(** ** Notions the properties are stated with *)
(* ===================================================================== *)

Import BaseStorage (setAll, delAll, ensure, expect, and_assign, await_has).

(** The identifier after the first two steps of [_idPath]: backslashes
    replaced, one leading slash dropped. *)
Definition normalised (id : string) : string :=
  let id := JsString.replaceAll "\" "/" id in
  if JsString.startsWith id "/" then JsString.slice id 1 None else id.

(** A value that survives the trip through the runtime's [JSON] object. *)
Definition JSON_serializable {J : JSON} (v : value) : Prop :=
  match JSON_stringify v with
  | Some raw => JSON_parse raw = Some v
  | None => False
  end.

(** The batch contract in the words of the design: every element is
    attempted in order, whatever the earlier ones returned, and the results
    are conjoined. *)
Fixpoint all_attempted {S A} (f : A -> M S bool) (xs : Array A) : M S bool :=
  match xs with
  | [] => ret true
  | x :: xs' =>
      let* r := f x in
      let* rs := all_attempted f xs' in
      ret (r && rs)
  end.

(** [all_succeed f xs s s']: run in order from state [s], every call of [f]
    on an element of [xs] returns [true], and the last one leaves [s']. *)
Inductive all_succeed {S A} (f : A -> M S bool) : Array A -> S -> S -> Prop :=
| all_succeed_nil s : all_succeed f [] s s
| all_succeed_cons x xs s s1 s2 :
    f x s = (Returned true, s1) ->
    all_succeed f xs s1 s2 ->
    all_succeed f (x :: xs) s s2.

(** *** Filesystems and caches used as test data *)

(** The data directory exists and holds nothing. *)
Definition fs_empty_store : FS.filesystem :=
  FS.of_list [(["data"], FS.Dir)].

(** One entry, [x], holding the number 2. *)
Definition fs_entry_x : FS.filesystem :=
  FS.of_list [(["data"], FS.Dir); (["data"; "x.json"], FS.File "2")].

(** The file of entry [x] is cut off after its opening brace. *)
Definition fs_malformed_entry : FS.filesystem :=
  FS.of_list [(["data"], FS.Dir); (["data"; "x.json"], FS.File "{")].

(** A directory sits where the file of entry [a] would go. *)
Definition fs_directory_at_a : FS.filesystem :=
  FS.of_list [(["data"], FS.Dir); (["data"; "a.json"], FS.Dir)].

(** The name of the data directory is taken by a regular file. *)
Definition fs_root_is_file : FS.filesystem :=
  FS.of_list [(["data"], FS.File "")].

Definition cache_entry_x (v : value) : CacheStorage.state :=
  [("./data/x.json", v)].

Definition only_noCache : StorageOptions :=
  {| extension := None; noCache := Some true; noFile := None |}.

Definition only_noFile : StorageOptions :=
  {| extension := None; noCache := None; noFile := Some true |}.

Definition only_txt : StorageOptions :=
  {| extension := Some "txt"; noCache := None; noFile := None |}.

Definition fs_dir_with_subdir : FS.filesystem :=
  FS.of_list [(["data"], FS.Dir); (["data"; "dir"], FS.Dir);
              (["data"; "dir"; "x.json"], FS.File "1");
              (["data"; "dir"; "sub"], FS.Dir);
              (["data"; "dir"; "sub"; "y.json"], FS.File "2")].

(** A predicate that holds of the absent value only. *)
Definition is_absent {S} : value -> string -> M S bool :=
  fun data _ => ret (match data with VUndefined => true | _ => false end).

(** Unfolds the plumbing of method bodies. *)
Ltac run := unfold bind, ret, throw, autoCatch in *.

(* ===================================================================== *)
(** ** The other classes: client set-up, action managers, builders *)
(* ===================================================================== *)

(** [Map<string, T>] for an arbitrary [T]: entries in insertion order,
    [None] for the [undefined] of a missing key. *)
Module StringMap.

Definition t (T : Type) : Type := list (string * T).

Fixpoint has {T} (key : string) (m : t T) : bool :=
  match m with
  | [] => false
  | (k, _) :: m' => if String.eqb k key then true else has key m'
  end.

Fixpoint get {T} (key : string) (m : t T) : option T :=
  match m with
  | [] => None
  | (k, v) :: m' => if String.eqb k key then Some v else get key m'
  end.

Fixpoint set {T} (key : string) (v : T) (m : t T) : t T :=
  match m with
  | [] => [(key, v)]
  | (k, w) :: m' =>
      if String.eqb k key then (k, v) :: m' else (k, w) :: set key v m'
  end.

Fixpoint delete {T} (key : string) (m : t T) : t T :=
  match m with
  | [] => []
  | (k, w) :: m' =>
      if String.eqb k key then m' else (k, w) :: delete key m'
  end.

End StringMap.

(** [common.ts]: the part of the [BotClient] constructor that fills the
    local cache from the configuration. *)
Module BotClient.

(** [Config], with [None] for an optional field left out; [intents] is not
    stored and is left out. *)
Record Config : Type := {
  clockInterval : option Z;
  color : option string;
  devGuilds : option (Array string);
  globalUpdate : option bool;
  name : option string;
  saveLogs : option bool;
  silent : option bool;
  token : string;
  version : option string;
}.

(** [config.version ? " v" + config.version : ""]: the empty string is
    falsy. *)
Definition log_version (config : Config) : string :=
  match version config with
  | Some v => if String.eqb v "" then "" else " v" +:+ v
  | None => ""
  end.

(** The nine [this.cache.set(...)] calls, in order. *)
Definition constructor (config : Config) : M CacheStorage.state unit :=
  let* _ := CacheStorage.set "token" (VStr (token config)) None in
  let* _ := CacheStorage.set "cmd_guilds"
              (VArr (List.map VStr (default [] (devGuilds config)))) None in
  let* _ := CacheStorage.set "cmd_global"
              (VBool (default false (globalUpdate config))) None in
  let* _ := CacheStorage.set "log_color"
              (VStr (default "#5865F2" (color config))) None in
  let* _ := CacheStorage.set "log_name"
              (VStr (default "Discord Bot" (name config))) None in
  let* _ := CacheStorage.set "log_store"
              (VBool (default false (saveLogs config))) None in
  let* _ := CacheStorage.set "log_silent"
              (VBool (default false (silent config))) None in
  let* _ := CacheStorage.set "log_version" (VStr (log_version config)) None in
  let* _ := CacheStorage.set "clock_delay"
              (VNum (default 30000 (clockInterval config))) None in
  ret tt.

End BotClient.

(** [action.ts]: identifiers and the callback registry of the action
    managers.  Callbacks and interactions are opaque. *)
Module ActionManager.
Section WithCallback.
Context {Callback : Type}.

(** [id.split(";")[0]!]. *)
Definition first_segment (id : string) : string :=
  hd "" (JsString.split id ";").

(** [id.includes(";") ? id.split(";")[0]! : id]. *)
Definition rawId_of (id : string) : string :=
  if JsString.includes id ";" then first_segment id else id.

(** [create]. *)
Definition create (id : string) (callback : Callback)
    (_callbacks : StringMap.t Callback) : StringMap.t Callback :=
  let id := rawId_of id in
  let _callbacks :=
    if negb (StringMap.has id _callbacks) then StringMap.delete id _callbacks
    else _callbacks in
  StringMap.set id callback _callbacks.

(** The first lines of [invoke]: the raw identifier and the [data] of the
    context. *)
Definition invoke_context (id : string) : string * Array string :=
  let rawId := rawId_of id in
  let data := tl (JsString.split id ";") in
  (rawId, data).

(** The branch [invoke] takes: the callback it calls together with the
    [data] of the context handed to it, or [None] when no callback is
    registered and it only logs a warning. *)
Definition invoke (id : string) (_callbacks : StringMap.t Callback)
  : option (Callback * Array string) :=
  let (rawId, data) := invoke_context id in
  if StringMap.has rawId _callbacks then
    match StringMap.get rawId _callbacks with
    | Some callback => Some (callback, data)
    | None => None
    end
  else None.

(** The [interactionCreate] listener of the button, modal and select menu
    managers, for an interaction of their kind with the given [customId]. *)
Definition on_component_interaction (customId : string)
    (_callbacks : StringMap.t Callback) : option (Callback * Array string) :=
  let rawId := rawId_of customId in
  invoke rawId _callbacks.

End WithCallback.
End ActionManager.

Module DefinedActionManager.
Section WithCallback.
Context {Callback D : Type}.

Record state : Type := {
  _definitions : StringMap.t D;
  _callbacks : StringMap.t Callback;
}.

(** [define]. *)
Definition define (id : string) (data : D) : M state unit :=
  fun s =>
    let id := ActionManager.rawId_of id in
    let defs := _definitions s in
    let defs := if StringMap.has id defs then StringMap.delete id defs else defs in
    (Returned tt,
     {| _definitions := StringMap.set id data defs; _callbacks := _callbacks s |}).

(** The overriding [create]: throws the string
    [`Missing definition: ${id}`] when nothing is defined under the raw
    identifier. *)
Definition create (id : string) (callback : Callback) : M state unit :=
  fun s =>
    let id := ActionManager.rawId_of id in
    if StringMap.has id (_definitions s) then
      (Returned tt,
       {| _definitions := _definitions s;
          _callbacks := ActionManager.create id callback (_callbacks s) |})
    else (Thrown (UserError ("Missing definition: " +:+ id)), s).

End WithCallback.
End DefinedActionManager.

(** [button.ts], and in the same words the select menu and modal builders:
    the identifier that [id(id, data)] hands to [setCustomId].  [data] is
    [None] when the argument is left out. *)
Module ButtonBuilder.

Definition id (id : string) (data : option string) : string :=
  match data with
  | Some d =>
      if negb (String.eqb d "")
         && (JsString.length (id +:+ ";" +:+ d) <=? 100)
      then id +:+ ";" +:+ d
      else id
  | None => id
  end.

End ButtonBuilder.

(** The modal builder: its rows, one field each. *)
Module ModalBuilder.
Section WithRow.
Context {Field Row : Type}.
(** [new MessageActionRow().addComponents(field)]. *)
Variable row_of : Field -> Row.

(** [field]: drops the oldest row once there are five. *)
Definition field (f : Field) (__rows : Array Row) : Array Row :=
  let __rows := if (5 <=? Z.of_nat (List.length __rows)) then tl __rows else __rows in
  __rows ++ [row_of f].

(** [fields]: starts from no rows and adds the fields in order. *)
Definition fields (fs : Array Field) : Array Row :=
  List.fold_left (fun __rows f => field f __rows) fs [].

End WithRow.
End ModalBuilder.

(** The component builder.  The working array of [build] holds components
    and, once the loop has run, rows built from them. *)
Module ComponentBuilder.
Section WithRow.
Context {Item Row : Type}.
(** [new MessageActionRow().addComponents(...components)], as an element
    of the working array. *)
Variable row_of : Array Item -> Item.

(** One turn of the loop: [rows.splice(0, 5)] takes the first five
    elements out, and the row made of them is pushed. *)
Definition build_step (rows : Array Item) : Array Item :=
  let components := List.firstn 5 rows in
  let rows := List.skipn 5 rows in
  rows ++ [row_of components].

(** The loop condition, [rows.length > 0 && rows.length < 5]. *)
Definition build_continues (rows : Array Item) : bool :=
  (0 <? Z.of_nat (List.length rows)) && (Z.of_nat (List.length rows) <? 5).

(** [build], run for at most [fuel] turns of its loop: [Some result] when
    it returns within them.  Nothing is ever pushed to [result]. *)
Fixpoint build_loop (fuel : nat) (rows : Array Item) (result_ : Array Row)
  : option (Array Row) :=
  if build_continues rows then
    match fuel with
    | O => None
    | S fuel' => build_loop fuel' (build_step rows) result_
    end
  else Some result_.

Definition build (fuel : nat) (__components : Array Item) : option (Array Row) :=
  build_loop fuel __components [].

End WithRow.
End ComponentBuilder.

(** *** Notions for the further properties *)

(** Every number in the value is an integer that a double holds exactly,
    [Number.isSafeInteger]: the range in which [toString] prints a number
    as the runtime does. *)
Fixpoint safe_integers (v : value) : bool :=
  match v with
  | VNum n => Z.abs n <? 2 ^ 53
  | VArr elems => forallb safe_integers elems
  | VObj props => forallb (fun kv => safe_integers (snd kv)) props
  | _ => true
  end.

(** The keys of the cache's map are pairwise distinct, as in every
    [Map]. *)
Definition distinct_keys (m : JsMap.t) : Prop := NoDup (List.map fst m).

(* ===================================================================== *)
(** ** Facts about strings *)
(* ===================================================================== *)

Section StringFacts.

Lemma append_cons c a b : String c a +:+ b = String c (a +:+ b).
Proof. reflexivity. Qed.

Lemma append_nil_l b : "" +:+ b = b.
Proof. reflexivity. Qed.

Lemma append_assoc a b c : (a +:+ b) +:+ c = a +:+ (b +:+ c).
Proof. induction a as [|x a IH]; [reflexivity|]. by rewrite !append_cons, IH. Qed.

Lemma append_empty_r a : a +:+ "" = a.
Proof. induction a as [|x a IH]; [reflexivity|]. by rewrite append_cons, IH. Qed.

Lemma includes_app a b c :
  JsString.includes (a +:+ b) c = JsString.includes a c || JsString.includes b c.
Proof.
  induction a as [|x a IH]; [reflexivity|].
  rewrite append_cons. simpl. rewrite IH. apply orb_assoc.
Qed.

Lemma includes_replaceAll c d s :
  c <> d -> JsString.includes (JsString.replaceAll c d s) c = false.
Proof.
  intros Hcd. induction s as [|x s IH]; [reflexivity|].
  simpl. rewrite IH, orb_false_r.
  destruct (Ascii.eqb x c) eqn:E.
  - apply Ascii.eqb_neq. congruence.
  - exact E.
Qed.

Lemma replaceAll_absent c d s :
  JsString.includes s c = false -> JsString.replaceAll c d s = s.
Proof.
  induction s as [|x s IH]; [reflexivity|].
  simpl. intros [Hx Hs]%orb_false_iff. rewrite Hx, IH; auto.
Qed.

Lemma rev_app_spec s acc : String.rev_app s acc = String.rev s +:+ acc.
Proof.
  unfold String.rev. revert acc.
  induction s as [|x s IH]; intros acc; [reflexivity|].
  simpl. rewrite (IH (String x "")), IH.
  rewrite append_assoc. reflexivity.
Qed.

Lemma rev_append a b : String.rev (a +:+ b) = String.rev b +:+ String.rev a.
Proof.
  induction a as [|x a IH].
  - rewrite append_nil_l. symmetry. apply append_empty_r.
  - rewrite append_cons. unfold String.rev at 1 3. simpl.
    rewrite !rev_app_spec, IH. apply append_assoc.
Qed.

Lemma prefix_append p q : String.prefix p (p +:+ q) = true.
Proof.
  induction p as [|x p IH].
  - rewrite append_nil_l. destruct q; reflexivity.
  - rewrite append_cons. simpl. destruct (ascii_dec x x); [exact IH | congruence].
Qed.

Lemma prefix_append_r p s q :
  String.prefix p s = true -> String.prefix p (s +:+ q) = true.
Proof.
  revert s. induction p as [|x p IH]; intros s H.
  - destruct (s +:+ q); reflexivity.
  - destruct s as [|y s]; [discriminate|].
    rewrite append_cons. simpl in *. destruct (ascii_dec x y); [auto | discriminate].
Qed.

Lemma endsWith_app a b : JsString.endsWith (a +:+ b) b = true.
Proof. unfold JsString.endsWith. rewrite rev_append. apply prefix_append. Qed.

Lemma endsWith_app_l p s e :
  JsString.endsWith s e = true -> JsString.endsWith (p +:+ s) e = true.
Proof.
  unfold JsString.endsWith. intros H. rewrite rev_append.
  by apply prefix_append_r.
Qed.

Lemma startsWith_slash s :
  JsString.startsWith s "/" = true -> exists t, s = String "/" t.
Proof.
  unfold JsString.startsWith. intros H%String.prefix_correct.
  destruct s as [|c t]; [discriminate|].
  simpl in H. destruct t; injection H as ->; eauto.
Qed.

Lemma slice_1 c s : JsString.slice (String c s) 1 None = s.
Proof.
  unfold JsString.slice, JsString.clamp, JsString.length. simpl default.
  cbn [String.length].
  replace (1 <? 0) with false by reflexivity.
  destruct (Z.ltb_spec (Z.of_nat (S (String.length s))) 0); [lia|].
  rewrite Z.min_l, Z.min_r by lia.
  replace (Z.to_nat 1) with 1%nat by reflexivity.
  replace (Z.to_nat (Z.of_nat (S (String.length s)) - 1))
    with (String.length s) by lia.
  simpl. clear. induction s as [|x s IH]; simpl; [reflexivity | by rewrite IH].
Qed.

End StringFacts.

(* ===================================================================== *)
(** ** The identifier resolver *)
(* ===================================================================== *)

Section Resolver.

Lemma normalised_no_backslash id : JsString.includes (normalised id) "\" = false.
Proof.
  unfold normalised.
  pose proof (includes_replaceAll "\" "/" id ltac:(discriminate)) as H.
  destruct (JsString.startsWith _ "/") eqn:E; [|exact H].
  apply startsWith_slash in E as [t Ht]. rewrite Ht in *. rewrite slice_1.
  simpl in H. exact H.
Qed.

(** [_idPath] in terms of the normalised identifier. *)
Lemma idPath_unfold id e :
  _idPath id e =
  if JsString.endsWith (normalised id) (default "json" e)
  then _rootPath +:+ "/" +:+ normalised id
  else _rootPath +:+ "/" +:+ normalised id +:+ "." +:+ default "json" e.
Proof. reflexivity. Qed.

(** A string that needs no normalisation and carries the extension only
    gains the root. *)
Lemma idPath_resolved r e :
  JsString.includes r "\" = false ->
  JsString.startsWith r "/" = false ->
  JsString.endsWith r (default "json" e) = true ->
  _idPath r e = _rootPath +:+ "/" +:+ r.
Proof.
  intros Hb Hs He. unfold _idPath. simpl (default "json" (extension _)).
  rewrite (replaceAll_absent _ _ _ Hb), Hs, He. reflexivity.
Qed.

(** C3, as stated, fails: resolving the resolved location of [x] again
    yields [./data/./data/x.json], not [./data/x.json]. *)
Lemma idPath_not_idempotent :
  _idPath "x" (Some "json") = "./data/x.json" /\
  _idPath (_idPath "x" (Some "json")) (Some "json") = "./data/./data/x.json" /\
  _idPath (_idPath "x" (Some "json")) (Some "json") <> _idPath "x" (Some "json").
Proof. repeat split. vm_compute. discriminate. Qed.

(** C3, amended: resolving an already-resolved location again appends no
    second extension suffix, but puts the root in front once more; this
    holds for every identifier and every extension free of backslashes. *)
Theorem idPath_twice id e :
  JsString.includes (default "json" e) "\" = false ->
  _idPath (_idPath id e) e = _rootPath +:+ "/" +:+ _idPath id e.
Proof.
  intros He. apply idPath_resolved.
  - rewrite idPath_unfold. pose proof (normalised_no_backslash id) as Hn.
    destruct (JsString.endsWith (normalised id) _);
      rewrite ?includes_app, ?Hn, ?He; reflexivity.
  - rewrite idPath_unfold.
    destruct (JsString.endsWith (normalised id) _); reflexivity.
  - rewrite idPath_unfold.
    destruct (JsString.endsWith (normalised id) _) eqn:E.
    + do 2 apply endsWith_app_l. exact E.
    + do 3 apply endsWith_app_l. apply endsWith_app.
Qed.

Lemma idPath_twice_witness :
  JsString.includes (default "json" (Some "txt")) "\" = false /\
  _idPath (_idPath "\a\b" (Some "txt")) (Some "txt") =
  _rootPath +:+ "/" +:+ _idPath "\a\b" (Some "txt").
Proof.
  split; [reflexivity | apply (idPath_twice "\a\b" (Some "txt")); reflexivity].
Defined.

End Resolver.

(* ===================================================================== *)
(** ** The in-memory map and the filesystem *)
(* ===================================================================== *)

Section MapFacts.

Lemma JsMap_has_set key v m : JsMap.has key (JsMap.set key v m) = true.
Proof.
  induction m as [|[k w] m IH]; simpl.
  - by rewrite String.eqb_refl.
  - destruct (String.eqb k key) eqn:E; simpl; rewrite E; auto.
Qed.

Lemma JsMap_get_set key v m : JsMap.get key (JsMap.set key v m) = v.
Proof.
  induction m as [|[k w] m IH]; simpl.
  - by rewrite String.eqb_refl.
  - destruct (String.eqb k key) eqn:E; simpl; rewrite E; auto.
Qed.

Lemma JsMap_get_absent key m : JsMap.has key m = false -> JsMap.get key m = VUndefined.
Proof.
  induction m as [|[k w] m IH]; simpl; [reflexivity|].
  destruct (String.eqb k key); [discriminate | exact IH].
Qed.

End MapFacts.

Section FilesystemFacts.

Lemma readFile_state path fs : snd (FS.readFile path fs) = fs.
Proof.
  unfold FS.readFile. destruct (FS.locate fs path); [|reflexivity].
  destruct (FS.node_at fs _) as [[]|]; try reflexivity.
  destruct (FS.names_directory path); reflexivity.
Qed.

(** Turning a node that is no directory into a file keeps every
    directory. *)
Lemma is_dir_put_file fs p raw q :
  FS.is_dir fs p = false -> FS.is_dir fs q = true ->
  FS.is_dir (FS.put p (FS.File raw) fs) q = true.
Proof.
  intros Hp Hq. assert (p <> q) as Hne by congruence.
  unfold FS.is_dir, FS.node_at in *. destruct q as [|x q]; [reflexivity|].
  simpl. rewrite lookup_insert_ne by done. exact Hq.
Qed.

Lemma walk_put_file fs p raw segs : forall cur target,
  FS.is_dir fs p = false ->
  FS.walk fs cur segs = Some target ->
  FS.walk (FS.put p (FS.File raw) fs) cur segs = Some target.
Proof.
  induction segs as [|seg segs IH]; intros cur target Hp H; [exact H|].
  simpl in *. destruct (FS.is_dir fs cur) eqn:E; [|discriminate].
  rewrite (is_dir_put_file _ _ _ _ Hp E). auto.
Qed.

Lemma node_at_put fs p n : p <> [] -> FS.node_at (FS.put p n fs) p = Some n.
Proof.
  intros Hp. unfold FS.node_at. destruct p; [done|]. simpl.
  apply lookup_insert_eq.
Qed.

(** What was written is what is read. *)
Lemma writeFile_readFile path raw fs fs' :
  FS.writeFile path (Some raw) fs = (Fulfilled tt, fs') ->
  FS.readFile path fs' = (Fulfilled raw, fs').
Proof.
  unfold FS.writeFile, FS.readFile, FS.locate.
  destruct (String.eqb path ""); [discriminate|].
  destruct (FS.walk fs _ _) as [p|] eqn:W; [|discriminate].
  intros H.
  assert (FS.is_dir fs p = false /\ FS.names_directory path = false /\
          fs' = FS.put p (FS.File raw) fs) as (Hd & Hn & ->).
  { unfold FS.is_dir. destruct (FS.node_at fs p) as [[]|];
      destruct (FS.names_directory path); try discriminate;
      injection H as <-; auto. }
  assert (p <> []) as Hp by (intros ->; discriminate).
  simpl FS.cwd. rewrite (walk_put_file _ _ _ _ _ _ Hd W).
  rewrite node_at_put by exact Hp. rewrite Hn. reflexivity.
Qed.

End FilesystemFacts.

(* ===================================================================== *)
(** ** The three stores *)
(* ===================================================================== *)

Section StoreFacts.
Context {J : JSON}.

Lemma file_has_state id options fs : snd (FileStorage.has id options fs) = fs.
Proof.
  unfold FileStorage.has. destruct (noFile_of options); [reflexivity|]. run.
  pose proof (readFile_state (_idPath id (extension_of options)) fs) as H.
  destruct (FS.readFile _ fs) as [[] ?]; simpl in *; congruence.
Qed.

Lemma file_get_state id options fs : snd (FileStorage.get id options fs) = fs.
Proof.
  unfold FileStorage.get. destruct (noFile_of options); [reflexivity|]. run.
  pose proof (readFile_state (_idPath id (extension_of options)) fs) as H.
  destruct (FS.readFile _ fs) as [[content|] ?]; simpl in *; subst; [|reflexivity].
  destruct (FileStorage.raw_extension options); [reflexivity|].
  destruct (JSON_parse content); reflexivity.
Qed.

(** [has] of the file store never throws. *)
Lemma file_has_returns id options fs :
  exists b, FileStorage.has id options fs = (Returned b, fs).
Proof.
  pose proof (file_has_state id options fs) as H. revert H.
  unfold FileStorage.has. destruct (noFile_of options); [by eexists|]. run.
  destruct (FS.readFile _ fs) as [[] ?]; simpl; intros ->; by eexists.
Qed.

Lemma dual_has_returns id options s :
  exists b, DualStorage.has id options s = (Returned b, s).
Proof.
  destruct s as [c f]. destruct (file_has_returns id options f) as [b Hb].
  unfold DualStorage.has, DualStorage.on_cache, DualStorage.on_file,
    CacheStorage.has, bind, ret.
  destruct (noCache_of options); cbn -[FileStorage.has].
  - rewrite Hb. by eexists.
  - destruct (JsMap.has _ c); cbn -[FileStorage.has]; [by eexists|].
    rewrite Hb. by eexists.
Qed.

(** Text that does not parse makes [get] throw: the parse is not guarded. *)
Lemma file_get_parse_failure id options fs content :
  noFile_of options = false ->
  FileStorage.raw_extension options = false ->
  FS.readFile (_idPath id (extension_of options)) fs = (Fulfilled content, fs) ->
  JSON_parse content = None ->
  FileStorage.get id options fs = (Thrown SyntaxError, fs).
Proof.
  intros Hn Hr Hread Hparse. unfold FileStorage.get. rewrite Hn. run.
  rewrite Hread, Hr, Hparse. reflexivity.
Qed.

(** On the file store a successful [set] is read back by [get]. *)
Lemma file_set_get id v fs fs' :
  JSON_serializable v ->
  FileStorage.set id v None fs = (Returned true, fs') ->
  FileStorage.get id None fs' = (Returned v, fs').
Proof.
  unfold JSON_serializable, FileStorage.set, FileStorage.get. simpl. run.
  intros Hv H.
  destruct (FS.mkdir _ fs) as [[] fs1];
    destruct (JSON_stringify v) as [raw|]; try done;
    (destruct (FS.writeFile _ _ fs1) as [[[]|] fs2] eqn:W; simpl in H;
       [|discriminate]);
    injection H as <-;
    rewrite (writeFile_readFile _ _ _ _ W), Hv; reflexivity.
Qed.

(** On the cache every [set] without options is read back by [get]. *)
Lemma cache_set_get id v c :
  exists c', CacheStorage.set id v None c = (Returned true, c') /\
             CacheStorage.get id None c' = (Returned v, c').
Proof.
  unfold CacheStorage.set, CacheStorage.get. simpl.
  eexists. split.
  - by rewrite JsMap_has_set.
  - by rewrite JsMap_get_set.
Qed.

End StoreFacts.

(* ===================================================================== *)
(** ** The inherited operations *)
(* ===================================================================== *)

Section LoopFacts.
Context {S A : Type} (f : A -> M S bool).

(** Once the accumulator is false nothing more is called. *)
Lemma and_assign_false xs s : and_assign f xs false s = (Returned false, s).
Proof. induction xs as [|x xs IH]; [reflexivity|]. simpl. run. exact IH. Qed.

Lemma and_assign_all_succeed xs s s' :
  all_succeed f xs s s' -> and_assign f xs true s = (Returned true, s').
Proof.
  induction 1 as [s|x xs s s1 s2 Hx _ IH]; [reflexivity|].
  simpl. run. rewrite Hx. exact IH.
Qed.

Lemma and_assign_first_failure xs x rest s s1 s2 :
  all_succeed f xs s s1 ->
  f x s1 = (Returned false, s2) ->
  and_assign f (xs ++ x :: rest) true s = (Returned false, s2).
Proof.
  induction 1 as [s|y xs s s1 s3 Hy _ IH]; intros Hx; simpl; run.
  - rewrite Hx. apply and_assign_false.
  - rewrite Hy. apply IH, Hx.
Qed.

(** A call that throws ends the loop with that exception. *)
Lemma and_assign_first_throw xs x rest s s1 s2 e :
  all_succeed f xs s s1 ->
  f x s1 = (Thrown e, s2) ->
  and_assign f (xs ++ x :: rest) true s = (Thrown e, s2).
Proof.
  induction 1 as [s|y xs s s1 s3 Hy _ IH]; intros Hx; simpl; run.
  - rewrite Hx. reflexivity.
  - rewrite Hy. apply IH, Hx.
Qed.

(** Every run is of one of these kinds: all calls return true, or there is
    a first call that returns false or throws. *)
Lemma all_succeed_or_first_other xs : forall s,
  (exists s', all_succeed f xs s s') \/
  (exists xs1 x xs2 s1 s2,
     xs = xs1 ++ x :: xs2 /\ all_succeed f xs1 s s1 /\
     (f x s1 = (Returned false, s2) \/ exists e, f x s1 = (Thrown e, s2))).
Proof.
  induction xs as [|x xs IH]; intros s.
  - left. eexists. constructor.
  - destruct (f x s) as [[[|]|e] s1] eqn:E.
    + destruct (IH s1) as [[s' H]|(xs1 & y & xs2 & t1 & t2 & -> & H & Hy)].
      * left. exists s'. econstructor; eauto.
      * right. exists (x :: xs1), y, xs2, t1, t2.
        split; [reflexivity|]. split; [econstructor; eauto | exact Hy].
    + right. exists [], x, xs, s, s1.
      split; [reflexivity|]. split; [constructor | by left].
    + right. exists [], x, xs, s, s1.
      split; [reflexivity|]. split; [constructor | right; by exists e].
Qed.

End LoopFacts.

Section Ensure.

Lemma ensure_of_promise {S} (this : Store S) id fallback options s b :
  BaseStorage.has this id options s = (Returned (Promise b), s) ->
  ensure this id fallback options s = BaseStorage.get this id options s.
Proof. intros H. unfold ensure. run. rewrite H. reflexivity. Qed.

(** C1: [ensure] tests the promise that [has] hands back, not the awaited
    boolean.  On the file store and on the dual store it therefore never
    writes the fallback and is a plain [get]; on a file store without entry
    [x], [ensure("x", 5)] returns the absent value and leaves the store
    without the entry.  On the cache, whose [has] is synchronous, the same
    call stores 5 and returns it. *)
Theorem ensure_unawaited_has :
  (forall (J : JSON) id fallback options fs,
     ensure (@FileStorage.store J) id fallback options fs =
     @FileStorage.get J id options fs) /\
  (forall (J : JSON) id fallback options s,
     ensure (@DualStorage.store J) id fallback options s =
     @DualStorage.get J id options s) /\
  FileStorage.has "x" None fs_empty_store = (Returned false, fs_empty_store) /\
  ensure FileStorage.store "x" (VNum 5) None fs_empty_store =
    (Returned VUndefined, fs_empty_store) /\
  ensure CacheStorage.store "x" (VNum 5) None [] =
    (Returned (VNum 5), cache_entry_x (VNum 5)).
Proof.
  split; [|split; [|split; [|split]]].
  - intros J id fallback options fs.
    destruct (file_has_returns id options fs) as [b Hb].
    apply (ensure_of_promise FileStorage.store _ _ _ _ b).
    simpl. run. rewrite Hb. reflexivity.
  - intros J id fallback options s.
    destruct (dual_has_returns id options s) as [b Hb].
    apply (ensure_of_promise DualStorage.store _ _ _ _ b).
    simpl. run. rewrite Hb. reflexivity.
  - vm_compute. reflexivity.
  - vm_compute. reflexivity.
  - vm_compute. reflexivity.
Qed.

End Ensure.

Section Batch.



End Batch.

Section BatchWitness.


End BatchWitness.

Section Expect.

(** C10: [expect] decides existence by [has(id)], called without the
    options, and fetches the value it hands to the predicate with the
    options.  Whatever the options, the result is false when [has(id)] is
    false, and otherwise the predicate's verdict on [get(id, options)]. *)
Theorem expect_has_without_options {S} (this : Store S) (id : string)
    (predicate : value -> string -> M S bool) (options : option StorageOptions)
    (s s' : S) (present : Awaitable bool) :
  BaseStorage.has this id None s = (Returned present, s') ->
  expect this id predicate options s =
    if await present
    then (let* data := BaseStorage.get this id options in predicate data id) s'
    else (Returned false, s').
Proof.
  intros H. unfold expect, await_has. run. rewrite H.
  destruct (await present); reflexivity.
Qed.

(** On the file store, with the entry [x] on disk and [noFile] set: [has]
    with the options reports absence, yet [expect] with the same options
    finds the entry and runs the predicate on the absent value. *)
Lemma expect_has_without_options_witness :
  FileStorage.has "x" (Some only_noFile) fs_entry_x = (Returned false, fs_entry_x) /\
  BaseStorage.has FileStorage.store "x" None fs_entry_x =
    (Returned (Promise true), fs_entry_x) /\
  expect FileStorage.store "x" is_absent (Some only_noFile) fs_entry_x =
    (Returned true, fs_entry_x).
Proof.
  assert (BaseStorage.has FileStorage.store "x" None fs_entry_x =
          (Returned (Promise true), fs_entry_x)) as H by (vm_compute; reflexivity).
  split; [vm_compute; reflexivity | split; [exact H |]].
  exact (eq_trans
           (expect_has_without_options FileStorage.store "x" is_absent
              (Some only_noFile) fs_entry_x fs_entry_x (Promise true) H)
           eq_refl).
Defined.

End Expect.

Section FileStore.

(** C4: [get] of the file store parses outside [autoCatch].  With the file
    of entry [x] cut off after its opening brace, [get("x")] ends with a
    [SyntaxError] instead of returning the absent value. *)
Theorem file_get_throws_on_malformed_json :
  FileStorage.get "x" None fs_malformed_entry =
    (Thrown SyntaxError, fs_malformed_entry).
Proof.
  apply file_get_parse_failure with (content := "{");
    vm_compute; reflexivity.
Qed.

(** C6: [set] of the file store creates the last directory of the path
    only.  With the data directory empty, [set("a/b/c", 5)] finds neither
    [a] nor [a/b], creates nothing, writes nothing and returns false;
    with one missing directory, as for [a/c], it creates it and writes. *)
Theorem file_set_fails_below_missing_directories :
  FileStorage.set "a/b/c" (VNum 5) None fs_empty_store =
    (Returned false, fs_empty_store) /\
  FileStorage.set "a/c" (VNum 5) None fs_empty_store =
    (Returned true,
     FS.of_list [(["data"], FS.Dir); (["data"; "a"], FS.Dir);
                 (["data"; "a"; "c.json"], FS.File "5")]).
Proof. split; vm_compute; reflexivity. Qed.

(** C9: [list] of the file store hands the resolved location of each file
    to [get], which resolves it once more and reads below [./data/./data].
    After [set("dir/x", 5)] on an empty store, [list("dir")] has the one
    pair for [./data/dir/x.json], with the absent value in place of 5. *)
Theorem file_list_reads_wrong_location :
  let stored := snd (FileStorage.set "dir/x" (VNum 5) None fs_empty_store) in
  FileStorage.set "dir/x" (VNum 5) None fs_empty_store = (Returned true, stored) /\
  FileStorage.get "dir/x" None stored = (Returned (VNum 5), stored) /\
  FileStorage.list "dir" None stored =
    (Returned [("./data/dir/x.json", VUndefined)], stored).
Proof. cbv zeta. repeat split; vm_compute; reflexivity. Qed.




End FileStore.

Section DualStore.

(** C5: with [noCache] set, [set] of the dual store returns false and
    leaves the cache and the filesystem as they were, whatever the other
    options: the cache step reports failure and the file step is skipped. *)
Theorem dual_set_noCache_drops_write {J : JSON} (id : string) (v : value)
    (o : StorageOptions) (s : DualStorage.state) :
  noCache o = Some true ->
  DualStorage.set id v (Some o) s = (Returned false, s).
Proof.
  intros H. destruct s as [c f].
  unfold DualStorage.set, DualStorage.on_cache, CacheStorage.set, bind, ret.
  simpl. rewrite H. reflexivity.
Qed.

Lemma dual_set_noCache_drops_write_witness :
  let s := {| DualStorage.__cache := []; DualStorage.__file := fs_empty_store |} in
  noCache only_noCache = Some true /\
  DualStorage.set "x" (VNum 5) (Some only_noCache) s = (Returned false, s).
Proof.
  cbv zeta. split; [reflexivity |].
  exact (dual_set_noCache_drops_write (J := NodeJSON) "x" (VNum 5) only_noCache
           _ eq_refl).
Defined.

(** C8, as stated, fails.  With 1 cached for [x] and 2 in its file, [get]
    with [noCache] returns 2 although the cache holds an entry; and with
    [null] cached for [x], [get] without options returns the file's 2. *)
Lemma dual_get_not_always_cache :
  let s1 := {| DualStorage.__cache := cache_entry_x (VNum 1);
               DualStorage.__file := fs_entry_x |} in
  let s2 := {| DualStorage.__cache := cache_entry_x VNull;
               DualStorage.__file := fs_entry_x |} in
  JsMap.has (_idPath "x" None) (DualStorage.__cache s1) = true /\
  JsMap.get (_idPath "x" None) (DualStorage.__cache s1) = VNum 1 /\
  DualStorage.get "x" (Some only_noCache) s1 = (Returned (VNum 2), s1) /\
  JsMap.has (_idPath "x" None) (DualStorage.__cache s2) = true /\
  JsMap.get (_idPath "x" None) (DualStorage.__cache s2) = VNull /\
  DualStorage.get "x" None s2 = (Returned (VNum 2), s2).
Proof. cbv zeta. repeat split; vm_compute; reflexivity. Qed.

(** C8, amended: [get] of the dual store returns the cache's stored value
    when [noCache] is not set and the cache holds, at the resolved location,
    a value other than [null] and [undefined]; in every other case it is
    the file store's [get].  Neither way does the call change the cache or
    the filesystem. *)
Theorem dual_get_cache_then_file {J : JSON} (id : string)
    (options : option StorageOptions) (s : DualStorage.state) :
  snd (DualStorage.get id options s) = s /\
  (let path := _idPath id (extension_of options) in
   let cached := JsMap.get path (DualStorage.__cache s) in
   if negb (noCache_of options) && JsMap.has path (DualStorage.__cache s)
      && negb (nullish cached)
   then DualStorage.get id options s = (Returned cached, s)
   else DualStorage.get id options s =
        DualStorage.on_file (FileStorage.get id options) s).
Proof.
  destruct s as [c f]. pose proof (file_get_state id options f) as Hf.
  unfold DualStorage.get, DualStorage.on_cache, DualStorage.on_file,
    CacheStorage.get, coalesce, bind, ret.
  cbn -[FileStorage.get _idPath].
  destruct (noCache_of options); cbn -[FileStorage.get _idPath].
  - destruct (FileStorage.get id options f) as [r f']. simpl in Hf. subst f'.
    split; reflexivity.
  - destruct (JsMap.has (_idPath id (extension_of options)) c) eqn:Hh;
      cbn -[FileStorage.get _idPath].
    + destruct (nullish (JsMap.get (_idPath id (extension_of options)) c));
        cbn -[FileStorage.get _idPath].
      * destruct (FileStorage.get id options f) as [r f']. simpl in Hf.
        subst f'. split; reflexivity.
      * split; reflexivity.
    + rewrite (JsMap_get_absent _ _ Hh). cbn -[FileStorage.get _idPath].
      destruct (FileStorage.get id options f) as [r f']. simpl in Hf.
      subst f'. split; reflexivity.
Qed.

End DualStore.

(* ===================================================================== *)
(** ** Further properties of the identifier resolver *)
(* ===================================================================== *)

Section ResolverShape.

Lemma replaceAll_append c d a b :
  JsString.replaceAll c d (a +:+ b) =
  JsString.replaceAll c d a +:+ JsString.replaceAll c d b.
Proof.
  induction a as [|x a IH]; [reflexivity|].
  rewrite append_cons. simpl. rewrite IH. reflexivity.
Qed.

Lemma prefix_nil s : String.prefix "" s = true.
Proof. destruct s; reflexivity. Qed.

Lemma prefix_cons a p b s :
  String.prefix (String a p) (String b s) = Ascii.eqb a b && String.prefix p s.
Proof.
  simpl. destruct (ascii_dec a b) as [->|Hne].
  - by rewrite Ascii.eqb_refl.
  - apply Ascii.eqb_neq in Hne. by rewrite Hne.
Qed.

Lemma prefix_append_cancel a b c :
  String.prefix (a +:+ b) (a +:+ c) = String.prefix b c.
Proof.
  induction a as [|x a IH]; [reflexivity|].
  rewrite !append_cons, prefix_cons, Ascii.eqb_refl. exact IH.
Qed.

Lemma startsWith_cons c r s :
  JsString.startsWith (String c r +:+ s) "/" = JsString.startsWith (String c r) "/".
Proof.
  unfold JsString.startsWith. rewrite append_cons, !prefix_cons, !prefix_nil.
  reflexivity.
Qed.

(** Text without backslash that is appended to an identifier passes
    through normalisation unchanged. *)
Lemma normalised_append id s :
  JsString.includes s "\" = false ->
  JsString.startsWith s "/" = false ->
  normalised (id +:+ s) = normalised id +:+ s.
Proof.
  intros Hb Hs. unfold normalised.
  rewrite replaceAll_append, (replaceAll_absent _ _ s Hb).
  destruct (JsString.replaceAll "\" "/" id) as [|c r].
  - rewrite append_nil_l, Hs. reflexivity.
  - rewrite startsWith_cons. destruct (JsString.startsWith (String c r) "/").
    + rewrite append_cons, !slice_1. reflexivity.
    + reflexivity.
Qed.

(** An identifier that needs no normalisation. *)
Lemma normalised_clean d :
  JsString.includes d "\" = false ->
  JsString.startsWith d "/" = false ->
  normalised d = d.
Proof.
  intros Hb Hs. unfold normalised. rewrite (replaceAll_absent _ _ d Hb), Hs.
  reflexivity.
Qed.

Lemma root_slash x : _rootPath +:+ "/" +:+ x = "./data/" +:+ x.
Proof. reflexivity. Qed.

Lemma dirPath_clean d :
  JsString.includes d "\" = false ->
  JsString.startsWith d "/" = false ->
  JsString.endsWith d "/" = false ->
  _dirPath d = "./data/" +:+ d +:+ "/".
Proof.
  intros Hb Hs He. unfold _dirPath.
  rewrite (replaceAll_absent _ _ d Hb), Hs, He. reflexivity.
Qed.

(** Every resolved entry location lies under the root and carries the
    extension; every resolved directory location lies under the root and
    ends with a slash. *)
Theorem resolved_locations_shape id dir e :
  JsString.startsWith (_idPath id e) "./data/" = true /\
  JsString.endsWith (_idPath id e) (default "json" e) = true /\
  JsString.startsWith (_dirPath dir) "./data/" = true /\
  JsString.endsWith (_dirPath dir) "/" = true.
Proof.
  repeat split.
  - rewrite idPath_unfold.
    destruct (JsString.endsWith (normalised id) _);
      apply (prefix_append "./data/").
  - rewrite idPath_unfold.
    destruct (JsString.endsWith (normalised id) _) eqn:E.
    + do 2 apply endsWith_app_l. exact E.
    + do 3 apply endsWith_app_l. apply endsWith_app.
  - unfold _dirPath.
    repeat match goal with |- context [if ?b then _ else _] => destruct b end;
      apply (prefix_append "./data/").
  - unfold _dirPath.
    set (d := if JsString.startsWith _ "/" then _ else _).
    destruct (JsString.endsWith d "/") eqn:E; simpl negb; cbv iota.
    + do 2 apply endsWith_app_l. exact E.
    + do 2 apply endsWith_app_l. apply endsWith_app.
Qed.

(** An identifier and the same identifier with the extension written out
    resolve to one location: [x] and [x.json] name the same entry. *)
Theorem idPath_extension_alias id e :
  JsString.includes (default "json" e) "\" = false ->
  JsString.endsWith (normalised id) (default "json" e) = false ->
  _idPath (id +:+ "." +:+ default "json" e) e = _idPath id e.
Proof.
  intros Hb He. rewrite !idPath_unfold.
  rewrite normalised_append.
  - rewrite He.
    replace (JsString.endsWith (normalised id +:+ "." +:+ default "json" e)
               (default "json" e)) with true; [reflexivity|].
    symmetry. apply endsWith_app_l, endsWith_app.
  - rewrite includes_app, Hb. reflexivity.
  - reflexivity.
Qed.

Lemma idPath_extension_alias_witness :
  JsString.includes (default "json" None) "\" = false /\
  JsString.endsWith (normalised "a\b") (default "json" None) = false /\
  _idPath ("a\b" +:+ "." +:+ default "json" None) None = _idPath "a\b" None.
Proof.
  split; [reflexivity | split; [reflexivity |]].
  apply (idPath_extension_alias "a\b" None); reflexivity.
Defined.

(** Scoping by directory.  For a directory name [d] in normal form, an
    identifier of the form [d/...] resolves to a location under the
    directory location of [d], and an identifier that continues [d] with
    any character other than a separator -- a sibling such as [d2/...] --
    does not. *)
Theorem dirPath_scopes_identifiers d c rest e :
  d <> "" ->
  JsString.includes d "\" = false ->
  JsString.startsWith d "/" = false ->
  JsString.endsWith d "/" = false ->
  c <> "/"%char -> c <> "\"%char ->
  JsString.startsWith (_idPath (d +:+ "/" +:+ rest) e) (_dirPath d) = true /\
  JsString.startsWith (_idPath (d +:+ String c rest) e) (_dirPath d) = false.
Proof.
  intros Hne Hb Hs He Hc1 Hc2.
  assert (forall x, normalised (d +:+ x) = d +:+ JsString.replaceAll "\" "/" x)
    as Hn.
  { intros x. unfold normalised. rewrite replaceAll_append.
    rewrite (replaceAll_absent _ _ d Hb).
    destruct d as [|a r]; [done|].
    rewrite startsWith_cons, Hs. reflexivity. }
  rewrite (dirPath_clean d Hb Hs He). unfold JsString.startsWith.
  change ("/" +:+ rest) with (String "/" rest).
  assert (Ascii.eqb c "\" = false) as Ec by (by apply Ascii.eqb_neq).
  assert (Ascii.eqb "/" c = false) as Es by (apply Ascii.eqb_neq; congruence).
  split; rewrite idPath_unfold, Hn; simpl JsString.replaceAll;
    match goal with |- context [if ?b then _ else _] => destruct b end;
    rewrite root_slash, ?append_assoc, !prefix_append_cancel,
      ?append_cons, prefix_cons, ?prefix_nil, ?Ec, ?Es; reflexivity.
Qed.

Lemma dirPath_scopes_identifiers_witness :
  JsString.startsWith (_idPath ("dir" +:+ "/" +:+ "x") None) (_dirPath "dir") = true /\
  JsString.startsWith (_idPath ("dir" +:+ String "2" "/x") None) (_dirPath "dir") = false.
Proof.
  split.
  - apply (dirPath_scopes_identifiers "dir" "2" "x" None);
      first [discriminate | reflexivity].
  - apply (dirPath_scopes_identifiers "dir" "2" "/x" None);
      first [discriminate | reflexivity].
Defined.

End ResolverShape.

(* ===================================================================== *)
(** ** Further properties of the cache *)
(* ===================================================================== *)

Section CacheMap.

Lemma JsMap_has_In key m : JsMap.has key m = true <-> In key (List.map fst m).
Proof.
  induction m as [|[k w] m IH]; simpl; [split; [discriminate | tauto]|].
  destruct (String.eqb_spec k key) as [->|Hne]; [tauto|].
  rewrite IH. split; [tauto | intros [?|?]; [congruence | done]].
Qed.

Lemma JsMap_set_keys key v m :
  List.map fst (JsMap.set key v m) =
  if JsMap.has key m then List.map fst m else List.map fst m ++ [key].
Proof.
  induction m as [|[k w] m IH]; simpl; [reflexivity|].
  destruct (String.eqb k key); simpl; [reflexivity|].
  rewrite IH. destruct (JsMap.has key m); reflexivity.
Qed.

Lemma distinct_keys_set key v m :
  distinct_keys m -> distinct_keys (JsMap.set key v m).
Proof.
  unfold distinct_keys. intros H. rewrite JsMap_set_keys.
  destruct (JsMap.has key m) eqn:E; [exact H|].
  apply NoDup_app; split; [exact H|]. split.
  - intros x Hx Hk. apply list_elem_of_In in Hx. apply list_elem_of_In in Hk.
    destruct Hk as [<-|[]]. apply JsMap_has_In in Hx. congruence.
  - apply NoDup_singleton.
Qed.

Lemma JsMap_delete_keys_incl key m x :
  In x (List.map fst (JsMap.delete key m)) -> In x (List.map fst m).
Proof.
  induction m as [|[k w] m IH]; simpl; [tauto|].
  destruct (String.eqb k key); simpl; tauto.
Qed.

Lemma distinct_keys_delete key m :
  distinct_keys m -> distinct_keys (JsMap.delete key m).
Proof.
  unfold distinct_keys. induction m as [|[k w] m IH]; simpl; [done|].
  intros [Hk Hm]%NoDup_cons. destruct (String.eqb k key); [exact Hm|].
  simpl. apply NoDup_cons. split; [|auto].
  intros Hin%list_elem_of_In%JsMap_delete_keys_incl. apply Hk.
  by apply list_elem_of_In.
Qed.

Lemma JsMap_has_delete key m :
  distinct_keys m -> JsMap.has key (JsMap.delete key m) = false.
Proof.
  unfold distinct_keys. induction m as [|[k w] m IH]; simpl; [done|].
  intros [Hk Hm]%NoDup_cons.
  destruct (String.eqb_spec k key) as [->|Hne].
  - destruct (JsMap.has key m) eqn:E; [|reflexivity].
    apply JsMap_has_In in E. exfalso. apply Hk. by apply list_elem_of_In.
  - simpl. destruct (String.eqb_spec k key); [done | auto].
Qed.

Lemma JsMap_delete_absent key m : JsMap.has key m = false -> JsMap.delete key m = m.
Proof.
  induction m as [|[k w] m IH]; simpl; [done|].
  destruct (String.eqb k key); [discriminate|]. intros H. by rewrite IH.
Qed.

Lemma JsMap_set_other key key' v m :
  key <> key' ->
  JsMap.has key' (JsMap.set key v m) = JsMap.has key' m /\
  JsMap.get key' (JsMap.set key v m) = JsMap.get key' m.
Proof.
  intros Hne. induction m as [|[k w] m IH]; simpl.
  - destruct (String.eqb_spec key key'); [done | auto].
  - destruct (String.eqb_spec k key) as [->|Hk]; simpl.
    + destruct (String.eqb_spec key key'); [done | auto].
    + destruct (String.eqb k key'); auto.
Qed.

Lemma JsMap_delete_other key key' m :
  key <> key' ->
  JsMap.has key' (JsMap.delete key m) = JsMap.has key' m /\
  JsMap.get key' (JsMap.delete key m) = JsMap.get key' m.
Proof.
  intros Hne. induction m as [|[k w] m IH]; simpl; [auto|].
  destruct (String.eqb_spec k key) as [->|Hk]; simpl.
  - destruct (String.eqb_spec key key'); [done | auto].
  - destruct (String.eqb k key'); auto.
Qed.

(** With distinct keys, the pairs of the map are what [has] and [get]
    report. *)
Lemma JsMap_In_get k v m :
  distinct_keys m ->
  In (k, v) m <-> JsMap.has k m = true /\ JsMap.get k m = v.
Proof.
  unfold distinct_keys. induction m as [|[k' w] m IH]; simpl.
  - intros _. split; [tauto | intros [? _]; discriminate].
  - intros [Hk Hm]%NoDup_cons. specialize (IH Hm).
    destruct (String.eqb_spec k' k) as [->|Hne].
    + split.
      * intros [[= ->]|Hin]; [auto|].
        exfalso. apply Hk, list_elem_of_In. change k with (fst (k, v)).
        by apply in_map.
      * intros [_ ->]. by left.
    + rewrite <- IH. split; [intros [[= ? ?]|?]; [congruence | done] | tauto].
Qed.

End CacheMap.

Section CacheStore.

(** [set] on the cache: the entry is there afterwards and holds the value,
    every other location is as before, and the keys stay distinct. *)
Theorem cache_set_frame id v options c :
  noCache_of options = false ->
  let path := _idPath id (extension_of options) in
  let c' := JsMap.set path v c in
  CacheStorage.set id v options c = (Returned true, c') /\
  CacheStorage.has id options c' = (Returned true, c') /\
  CacheStorage.get id options c' = (Returned v, c') /\
  (forall other, other <> path ->
     JsMap.has other c' = JsMap.has other c /\
     JsMap.get other c' = JsMap.get other c) /\
  (distinct_keys c -> distinct_keys c').
Proof.
  intros Hn path c'. unfold CacheStorage.set, CacheStorage.has, CacheStorage.get.
  rewrite Hn. fold path. fold c'. unfold c'.
  rewrite JsMap_has_set, JsMap_get_set. repeat split.
  - by apply JsMap_set_other.
  - by apply JsMap_set_other.
  - apply distinct_keys_set.
Qed.

Lemma cache_set_frame_witness :
  noCache_of None = false /\
  CacheStorage.set "x" (VNum 7) None (cache_entry_x (VNum 1)) =
    (Returned true, cache_entry_x (VNum 7)).
Proof.
  split; [reflexivity |].
  exact (proj1 (cache_set_frame "x" (VNum 7) None (cache_entry_x (VNum 1)) eq_refl)).
Defined.

(** [del] on the cache returns whether the entry was there; afterwards it
    is gone, every other location is as before, and deleting what is not
    there changes nothing. *)
Theorem cache_del_removes id options c :
  distinct_keys c ->
  noCache_of options = false ->
  let path := _idPath id (extension_of options) in
  let c' := JsMap.delete path c in
  CacheStorage.del id options c = (Returned (JsMap.has path c), c') /\
  CacheStorage.has id options c' = (Returned false, c') /\
  CacheStorage.get id options c' = (Returned VUndefined, c') /\
  (forall other, other <> path ->
     JsMap.has other c' = JsMap.has other c /\
     JsMap.get other c' = JsMap.get other c) /\
  (JsMap.has path c = false -> c' = c) /\
  distinct_keys c'.
Proof.
  intros Hd Hn path c'. unfold CacheStorage.del, CacheStorage.has, CacheStorage.get.
  rewrite Hn. fold path. fold c'. unfold c'.
  rewrite (JsMap_has_delete _ _ Hd).
  rewrite (JsMap_get_absent _ _ (JsMap_has_delete _ _ Hd)).
  repeat split.
  - by apply JsMap_delete_other.
  - by apply JsMap_delete_other.
  - apply JsMap_delete_absent.
  - by apply distinct_keys_delete.
Qed.

Lemma cache_del_removes_witness :
  distinct_keys (cache_entry_x (VNum 1)) /\
  noCache_of None = false /\
  CacheStorage.del "x" None (cache_entry_x (VNum 1)) = (Returned true, []).
Proof.
  assert (distinct_keys (cache_entry_x (VNum 1))) as Hd
    by (apply NoDup_cons; split; [intros H; inversion H | apply NoDup_nil_2]).
  split; [exact Hd | split; [reflexivity |]].
  exact (proj1 (cache_del_removes "x" None (cache_entry_x (VNum 1)) Hd eq_refl)).
Defined.

(** [list] on the cache returns, without changing anything, exactly the
    entries that [has] and [get] report at a location that starts with the
    resolved directory. *)
Theorem cache_list_scoped dir options c :
  distinct_keys c ->
  noCache_of options = false ->
  exists l,
    CacheStorage.list dir options c = (Returned l, c) /\
    forall k v,
      In (k, v) l <->
      JsMap.has k c = true /\ JsMap.get k c = v /\
      JsString.startsWith k (_dirPath dir) = true.
Proof.
  intros Hd Hn. unfold CacheStorage.list. rewrite Hn. eexists. split; [reflexivity|].
  intros k v. rewrite filter_In, (JsMap_In_get _ _ _ Hd). simpl. tauto.
Qed.

Lemma cache_list_scoped_witness :
  exists l,
    CacheStorage.list "dir" None
      [("./data/dir/x.json", VNum 1); ("./data/dir2/y.json", VNum 2)] =
      (Returned l, [("./data/dir/x.json", VNum 1); ("./data/dir2/y.json", VNum 2)]) /\
    (In ("./data/dir/x.json", VNum 1) l /\ ~ In ("./data/dir2/y.json", VNum 2) l).
Proof.
  assert (distinct_keys
            [("./data/dir/x.json", VNum 1); ("./data/dir2/y.json", VNum 2)]) as Hd.
  { repeat (apply NoDup_cons; split); [| |apply NoDup_nil_2].
    - intros H. apply list_elem_of_In in H. destruct H as [H|[]]. discriminate H.
    - intros H. inversion H. }
  destruct (cache_list_scoped "dir" None _ Hd eq_refl) as (l & Hl & Hin).
  exists l. split; [exact Hl|]. split.
  - apply Hin. repeat split.
  - intros H. apply Hin in H. destruct H as (_ & _ & H). discriminate H.
Defined.

(** [ensure] on the cache, whose [has] is synchronous, does what its
    documentation says: an entry that is there is returned and nothing is
    written; otherwise the fallback is stored and returned, and a second
    [ensure] with another fallback returns the stored one.  With [noCache]
    the fallback is returned and nothing is stored. *)
Theorem cache_ensure id fallback fallback' options c :
  let path := _idPath id (extension_of options) in
  ensure CacheStorage.store id fallback options c =
    (if noCache_of options then (Returned fallback, c)
     else if JsMap.has path c then (Returned (JsMap.get path c), c)
     else (Returned fallback, JsMap.set path fallback c)) /\
  (noCache_of options = false -> JsMap.has path c = false ->
   ensure CacheStorage.store id fallback' options
     (snd (ensure CacheStorage.store id fallback options c)) =
   (Returned fallback, JsMap.set path fallback c)).
Proof.
  intros path.
  assert (forall fb m,
    ensure CacheStorage.store id fb options m =
    (if noCache_of options then (Returned fb, m)
     else if JsMap.has path m then (Returned (JsMap.get path m), m)
     else (Returned fb, JsMap.set path fb m))) as E.
  { intros fb m. unfold ensure. simpl.
    unfold CacheStorage.has, CacheStorage.get, CacheStorage.set, bind, ret.
    destruct (noCache_of options); simpl; [reflexivity|].
    fold path. destruct (JsMap.has path m); reflexivity. }
  split; [apply E|].
  intros Hn Hh. rewrite !E, Hn, Hh. simpl.
  rewrite JsMap_has_set, JsMap_get_set. reflexivity.
Qed.

Lemma cache_ensure_witness :
  noCache_of None = false /\
  JsMap.has (_idPath "x" None) [] = false /\
  ensure CacheStorage.store "x" (VNum 99) None
    (snd (ensure CacheStorage.store "x" (VNum 5) None [])) =
  (Returned (VNum 5), cache_entry_x (VNum 5)).
Proof.
  split; [reflexivity | split; [reflexivity |]].
  exact (proj2 (cache_ensure "x" (VNum 5) (VNum 99) None []) eq_refl eq_refl).
Defined.

(** [modify] on the cache: an absent entry gives false and the modifier is
    not run, whatever it is; a present entry is replaced by the modifier's
    result. *)
Theorem cache_modify id (f : value -> value)
    (modifier : value -> string -> M CacheStorage.state value) options c :
  let path := _idPath id (extension_of options) in
  (noCache_of options = true \/ JsMap.has path c = false ->
   BaseStorage.modify CacheStorage.store id modifier options c =
     (Returned false, c)) /\
  (noCache_of options = false -> JsMap.has path c = true ->
   BaseStorage.modify CacheStorage.store id (fun data _ => ret (f data)) options c =
     (Returned true, JsMap.set path (f (JsMap.get path c)) c)).
Proof.
  intros path. unfold BaseStorage.modify, await_has. simpl.
  unfold CacheStorage.has, CacheStorage.get, CacheStorage.set, bind, ret.
  split.
  - intros [Hn|Hh].
    + rewrite Hn. reflexivity.
    + destruct (noCache_of options); [reflexivity|]. fold path. rewrite Hh.
      reflexivity.
  - intros Hn Hh. rewrite Hn. fold path. rewrite Hh. simpl.
    rewrite JsMap_has_set. reflexivity.
Qed.

Lemma cache_modify_witness :
  BaseStorage.modify CacheStorage.store "y" (fun data _ => ret VNull) None
    (cache_entry_x (VNum 1)) = (Returned false, cache_entry_x (VNum 1)) /\
  BaseStorage.modify CacheStorage.store "x" (fun data _ => ret (VArr [data])) None
    (cache_entry_x (VNum 1)) = (Returned true, cache_entry_x (VArr [VNum 1])).
Proof.
  split.
  - apply (proj1 (cache_modify "y" (fun v => v) _ None (cache_entry_x (VNum 1)))).
    right. reflexivity.
  - exact (proj2 (cache_modify "x" (fun data => VArr [data])
                    (fun data _ => ret data) None (cache_entry_x (VNum 1)))
             eq_refl eq_refl).
Defined.

End CacheStore.

(* ===================================================================== *)
(** ** Further properties of the inherited operations *)
(* ===================================================================== *)

Section ReadOnlyBatches.
Context {S : Type} (this : Store S).

Lemma and_assign_readonly {A} (f : A -> M S bool) (p : A -> bool) xs s :
  (forall x, f x s = (Returned (p x), s)) ->
  forall acc, and_assign f xs acc s = (Returned (acc && forallb p xs), s).
Proof.
  intros Hf. induction xs as [|x xs IH]; intros acc; simpl.
  - by rewrite andb_true_r.
  - unfold bind. destruct acc; simpl.
    + rewrite Hf, IH. reflexivity.
    + rewrite IH. reflexivity.
Qed.

Lemma or_assign_readonly {A} (f : A -> M S bool) (p : A -> bool) xs s :
  (forall x, f x s = (Returned (p x), s)) ->
  forall acc,
    BaseStorage.or_assign f xs acc s = (Returned (acc || existsb p xs), s).
Proof.
  intros Hf. induction xs as [|x xs IH]; intros acc; simpl.
  - by rewrite orb_false_r.
  - unfold bind. destruct acc; simpl.
    + rewrite IH. reflexivity.
    + rewrite Hf, IH. reflexivity.
Qed.

(** Where [has] only reads, [hasAll] is the conjunction and [hasAny] the
    disjunction of the single answers, and neither changes the state; for
    no identifiers they are true and false. *)
Theorem hasAll_hasAny_readonly (present : string -> Awaitable bool)
    (ids : Array string) options s :
  (forall id, BaseStorage.has this id options s = (Returned (present id), s)) ->
  BaseStorage.hasAll this ids options s =
    (Returned (forallb (fun id => await (present id)) ids), s) /\
  BaseStorage.hasAny this ids options s =
    (Returned (existsb (fun id => await (present id)) ids), s).
Proof.
  intros H.
  assert (forall id, await_has this id options s =
                     (Returned (await (present id)), s)) as Ha.
  { intros id. unfold await_has, bind, ret. rewrite H. reflexivity. }
  unfold BaseStorage.hasAll, BaseStorage.hasAny. split.
  - rewrite (and_assign_readonly _ _ _ _ Ha). reflexivity.
  - rewrite (or_assign_readonly _ _ _ _ Ha). reflexivity.
Qed.

Lemma getAll_from_readonly (fetch : string -> value) ids options s :
  (forall id, BaseStorage.get this id options s = (Returned (fetch id), s)) ->
  forall acc,
    BaseStorage.getAll_from this ids options acc s =
    (Returned (acc ++ List.map (fun id => (id, fetch id)) ids), s).
Proof.
  intros H. induction ids as [|id ids IH]; intros acc; simpl.
  - by rewrite app_nil_r.
  - unfold bind. rewrite H, IH, <- app_assoc. reflexivity.
Qed.

(** Where [get] only reads and returns, [getAll] pairs every identifier,
    in input order, with what [get] returns for it. *)
Theorem getAll_readonly (fetch : string -> value) (ids : Array string)
    options s :
  (forall id, BaseStorage.get this id options s = (Returned (fetch id), s)) ->
  BaseStorage.getAll this ids options s =
    (Returned (List.map (fun id => (id, fetch id)) ids), s).
Proof.
  intros H. unfold BaseStorage.getAll.
  rewrite (getAll_from_readonly fetch ids options s H). reflexivity.
Qed.

End ReadOnlyBatches.

Section ReadOnlyBatchesWitness.

Lemma hasAll_hasAny_readonly_witness :
  BaseStorage.hasAll CacheStorage.store ["x"; "y"] None (cache_entry_x (VNum 1)) =
    (Returned false, cache_entry_x (VNum 1)) /\
  BaseStorage.hasAny CacheStorage.store ["x"; "y"] None (cache_entry_x (VNum 1)) =
    (Returned true, cache_entry_x (VNum 1)).
Proof.
  exact (hasAll_hasAny_readonly CacheStorage.store
           (fun id => Plain (JsMap.has (_idPath id None) (cache_entry_x (VNum 1))))
           ["x"; "y"] None (cache_entry_x (VNum 1)) (fun id => eq_refl)).
Defined.

Lemma getAll_readonly_witness :
  BaseStorage.getAll CacheStorage.store ["y"; "x"] None (cache_entry_x (VNum 1)) =
    (Returned [("y", VUndefined); ("x", VNum 1)], cache_entry_x (VNum 1)).
Proof.
  exact (getAll_readonly CacheStorage.store
           (fun id => JsMap.get (_idPath id None) (cache_entry_x (VNum 1)))
           ["y"; "x"] None (cache_entry_x (VNum 1)) (fun id => eq_refl)).
Defined.

End ReadOnlyBatchesWitness.

(* ===================================================================== *)
(** ** Further properties of the file store *)
(* ===================================================================== *)

Section FilesystemMore.

Lemma walk_ext fs fs' segs :
  (forall q, FS.is_dir fs' q = FS.is_dir fs q) ->
  forall cur, FS.walk fs' cur segs = FS.walk fs cur segs.
Proof.
  intros H. induction segs as [|seg segs IH]; intros cur; [reflexivity|].
  simpl. rewrite H. destruct (FS.is_dir fs cur); [apply IH | reflexivity].
Qed.

Lemma is_dir_remove_file fs p q :
  FS.is_dir fs p = false -> FS.is_dir (FS.remove p fs) q = FS.is_dir fs q.
Proof.
  intros Hp. unfold FS.is_dir, FS.node_at in *. destruct q as [|x q]; [reflexivity|].
  simpl. destruct (decide (p = x :: q)) as [->|Hne].
  - rewrite lookup_delete_eq. destruct (FS.nodes fs !! (x :: q)) as [[]|]; done.
  - by rewrite lookup_delete_ne.
Qed.

Lemma locate_remove_file fs p path :
  FS.is_dir fs p = false -> FS.locate (FS.remove p fs) path = FS.locate fs path.
Proof.
  intros Hp. unfold FS.locate. destruct (String.eqb path ""); [reflexivity|].
  simpl FS.cwd. apply walk_ext. intros q. by apply is_dir_remove_file.
Qed.

(** What [readFile] reads is a regular file that [rm] removes. *)
Lemma readFile_fulfilled path content fs fs' :
  FS.readFile path fs = (Fulfilled content, fs') ->
  exists p, p <> [] /\ FS.locate fs path = Some p /\
            FS.node_at fs p = Some (FS.File content) /\
            FS.names_directory path = false /\
            FS.rm path fs = (Fulfilled tt, FS.remove p fs).
Proof.
  unfold FS.readFile, FS.rm. destruct (FS.locate fs path) as [p|]; [|discriminate].
  destruct (FS.node_at fs p) as [[c|]|] eqn:E; try discriminate.
  destruct (FS.names_directory path); [discriminate|].
  intros [= -> <-]. exists p. repeat split; try done.
  intros ->. discriminate E.
Qed.

(** What [readFile] cannot read, [rm] cannot remove. *)
Lemma readFile_rejected path e fs fs' :
  FS.readFile path fs = (Rejected e, fs') ->
  exists e', FS.rm path fs = (Rejected e', fs).
Proof.
  unfold FS.readFile, FS.rm. destruct (FS.locate fs path) as [p|]; [|by eexists].
  destruct (FS.node_at fs p) as [[c|]|]; try by eexists.
  destruct (FS.names_directory path); [by eexists | discriminate].
Qed.

Lemma readFile_after_rm path p content fs :
  p <> [] ->
  FS.locate fs path = Some p ->
  FS.node_at fs p = Some (FS.File content) ->
  FS.readFile path (FS.remove p fs) =
    (Rejected (SystemError ENOENT), FS.remove p fs).
Proof.
  intros Hp Hl Hn. unfold FS.readFile.
  rewrite locate_remove_file, Hl.
  - unfold FS.node_at. destruct p; [done|]. simpl. rewrite lookup_delete_eq.
    reflexivity.
  - unfold FS.is_dir. by rewrite Hn.
Qed.

Lemma readdir_state path fs : snd (FS.readdir path fs) = fs.
Proof.
  unfold FS.readdir. destruct (FS.locate fs path); [|reflexivity].
  destruct (FS.node_at fs _) as [[]|]; reflexivity.
Qed.

End FilesystemMore.

Section FileStoreMore.
Context {J : JSON}.


Lemma file_del_present_aux id options fs :
  FileStorage.has id options fs = (Returned true, fs) ->
  exists fs',
    FileStorage.del id options fs = (Returned true, fs') /\
    FileStorage.has id options fs' = (Returned false, fs') /\
    FileStorage.get id options fs' = (Returned VUndefined, fs').
Proof.
  unfold FileStorage.has, FileStorage.get, FileStorage.del.
  destruct (noFile_of options); [discriminate|]. run.
  destruct (FS.readFile _ fs) as [[content|e] fs1] eqn:R; simpl; [|discriminate].
  intros _. destruct (readFile_fulfilled _ _ _ _ R) as (p & Hp & Hl & Hn & _ & Hrm).
  rewrite Hrm. eexists. split; [reflexivity|].
  rewrite (readFile_after_rm _ _ _ _ Hp Hl Hn). split; reflexivity.
Qed.


(** After a [set] that returned true the entry is there, under any
    options. *)
Lemma file_set_written id v options fs fs' :
  FileStorage.set id v options fs = (Returned true, fs') ->
  noFile_of options = false /\
  exists raw,
    (if FileStorage.json_extension options then JSON_stringify v
     else Some (toString v)) = Some raw /\
    FS.readFile (_idPath id (extension_of options)) fs' = (Fulfilled raw, fs').
Proof.
  unfold FileStorage.set. destruct (noFile_of options); [discriminate|]. run.
  intros H. split; [reflexivity|].
  destruct (FS.mkdir _ fs) as [[] fs1];
    destruct (if FileStorage.json_extension options then _ else _) as [raw|];
    try done;
    (destruct (FS.writeFile _ _ fs1) as [[[]|] fs2] eqn:W; simpl in H;
       [|discriminate]);
    injection H as <-; exists raw;
    (split; [reflexivity | exact (writeFile_readFile _ _ _ _ W)]).
Qed.

Lemma raw_extension_not_json options :
  FileStorage.raw_extension options = true ->
  FileStorage.json_extension options = false.
Proof.
  unfold FileStorage.raw_extension, FileStorage.json_extension.
  destruct options as [[[e|] ? ?]|]; simpl; try discriminate.
  destruct (String.eqb e ""), (String.eqb e "json"); simpl; done.
Qed.


Lemma file_set_del_aux id v options fs fs' :
  FileStorage.set id v options fs = (Returned true, fs') ->
  exists fs'',
    FileStorage.del id options fs' = (Returned true, fs'') /\
    FileStorage.has id options fs'' = (Returned false, fs'').
Proof.
  intros Hs. destruct (file_set_written _ _ _ _ _ Hs) as (Hn & raw & _ & Hread).
  assert (FileStorage.has id options fs' = (Returned true, fs')) as Hh.
  { unfold FileStorage.has. rewrite Hn. run. rewrite Hread. reflexivity. }
  destruct (file_del_present_aux id options fs' Hh) as (fs'' & Hd & Hh' & _).
  eauto.
Qed.


End FileStoreMore.

Section FileStoreWitnesses.





End FileStoreWitnesses.

Section FileList.
Context {J : JSON}.

Lemma list_entries_shape path options content : forall output out fs fs',
  FileStorage.list_entries path options content output fs = (Returned out, fs') ->
  fs' = fs /\
  List.map fst out =
    List.map fst output ++
    List.map (fun d => path +:+ FS.name d) (List.filter FS.isFile content).
Proof.
  induction content as [|d content IH]; intros output out fs fs' H; simpl in *.
  - injection H as <- <-. by rewrite app_nil_r.
  - destruct (FS.isFile d); simpl in *; [|by apply IH].
    unfold bind in H.
    pose proof (file_get_state (path +:+ FS.name d) options fs) as Hst.
    destruct (FileStorage.get _ options fs) as [[data|e] fs1]; [|discriminate].
    simpl in Hst. subst fs1. apply IH in H as [-> ->].
    split; [reflexivity|]. rewrite map_app, <- app_assoc. reflexivity.
Qed.

(** [list] on the file store: when the directory cannot be read the result
    is empty; otherwise, whenever the call returns, the filesystem is as
    before and the identifiers listed are, in directory order, the resolved
    directory followed by the name of each regular file -- one pair per
    regular file and none for a subdirectory. *)
Theorem file_list_shape dir options fs :
  noFile_of options = false ->
  (forall e, FS.readdir (_dirPath dir) fs = (Rejected e, fs) ->
     FileStorage.list dir options fs = (Returned [], fs)) /\
  (forall content out fs',
     FS.readdir (_dirPath dir) fs = (Fulfilled content, fs) ->
     FileStorage.list dir options fs = (Returned out, fs') ->
     fs' = fs /\
     List.map fst out =
       List.map (fun d => _dirPath dir +:+ FS.name d)
                (List.filter FS.isFile content)).
Proof.
  intros Hn. unfold FileStorage.list. rewrite Hn. run. split.
  - intros e ->. reflexivity.
  - intros content out fs' -> H. by apply list_entries_shape in H.
Qed.

End FileList.

Section FileListWitness.

Lemma file_list_shape_witness :
  noFile_of None = false /\
  List.map fst (match fst (FileStorage.list "dir" None fs_dir_with_subdir) with
                | Returned out => out
                | Thrown _ => []
                end) = ["./data/dir/x.json"].
Proof.
  split; [reflexivity|].
  assert (exists content,
            FS.readdir (_dirPath "dir") fs_dir_with_subdir =
              (Fulfilled content, fs_dir_with_subdir) /\
            List.map (fun d => _dirPath "dir" +:+ FS.name d)
              (List.filter FS.isFile content) = ["./data/dir/x.json"])
    as (content & Hr & Hc) by (eexists; split; vm_compute; reflexivity).
  destruct (FileStorage.list "dir" None fs_dir_with_subdir) as [[out|e] fs'] eqn:E.
  - simpl. rewrite <- Hc.
    exact (proj2 (proj2 (file_list_shape (J := NodeJSON) "dir" None
                           fs_dir_with_subdir eq_refl) content out fs' Hr E)).
  - vm_compute in E. discriminate E.
Defined.

End FileListWitness.

(* ===================================================================== *)
(** ** Further properties of the dual store *)
(* ===================================================================== *)

Section DualStoreMore.
Context {J : JSON}.

(** [has] on the dual store is a cache hit or a file hit, and changes
    nothing. *)
Theorem dual_has_either id options s :
  exists on_disk,
    FileStorage.has id options (DualStorage.__file s) =
      (Returned on_disk, DualStorage.__file s) /\
    DualStorage.has id options s =
      (Returned
         (negb (noCache_of options)
          && JsMap.has (_idPath id (extension_of options)) (DualStorage.__cache s)
          || on_disk), s).
Proof.
  destruct s as [c f]. destruct (file_has_returns id options f) as [b Hb].
  exists b. split; [exact Hb|].
  unfold DualStorage.has, DualStorage.on_cache, DualStorage.on_file,
    CacheStorage.has, bind, ret.
  destruct (noCache_of options); cbn -[FileStorage.has _idPath].
  - rewrite Hb. reflexivity.
  - destruct (JsMap.has _ c); cbn -[FileStorage.has _idPath]; [reflexivity|].
    rewrite Hb. reflexivity.
Qed.

(** [del] on the dual store gives up when the cache step fails: without an
    entry in the cache, or with [noCache], it returns false and removes
    nothing, also when the entry is on disk. *)
Theorem dual_del_needs_cache_entry id options s :
  negb (noCache_of options)
  && JsMap.has (_idPath id (extension_of options)) (DualStorage.__cache s) = false ->
  DualStorage.del id options s = (Returned false, s).
Proof.
  destruct s as [c f]. simpl.
  unfold DualStorage.del, DualStorage.on_cache, CacheStorage.del, bind, ret.
  destruct (noCache_of options); simpl; [reflexivity|].
  intros H. rewrite H. rewrite (JsMap_delete_absent _ _ H). reflexivity.
Qed.

(** [set] on the dual store with [noFile]: the value is put into the cache,
    the filesystem is untouched, and the call returns false all the same. *)
Theorem dual_set_noFile_writes_cache id v options s :
  noCache_of options = false ->
  noFile_of options = true ->
  let path := _idPath id (extension_of options) in
  DualStorage.set id v options s =
    (Returned false,
     {| DualStorage.__cache := JsMap.set path v (DualStorage.__cache s);
        DualStorage.__file := DualStorage.__file s |}) /\
  JsMap.get path (JsMap.set path v (DualStorage.__cache s)) = v.
Proof.
  intros Hc Hf path. destruct s as [c f]. split; [|apply JsMap_get_set].
  unfold DualStorage.set, DualStorage.on_cache, DualStorage.on_file,
    CacheStorage.set, FileStorage.set, bind, ret.
  rewrite Hc, Hf. simpl. fold path. rewrite JsMap_has_set. reflexivity.
Qed.

Lemma dual_set_true id v options s s' :
  DualStorage.set id v options s = (Returned true, s') ->
  noCache_of options = false /\
  DualStorage.__cache s' =
    JsMap.set (_idPath id (extension_of options)) v (DualStorage.__cache s) /\
  FileStorage.set id v options (DualStorage.__file s) =
    (Returned true, DualStorage.__file s').
Proof.
  destruct s as [c f].
  unfold DualStorage.set, DualStorage.on_cache, DualStorage.on_file,
    CacheStorage.set, bind, ret.
  destruct (noCache_of options); cbn -[FileStorage.set _idPath]; [discriminate|].
  rewrite JsMap_has_set. cbn -[FileStorage.set _idPath].
  destruct (FileStorage.set id v options f) as [[b|e] f']; [|discriminate].
  intros H. injection H as Hb Hs'. subst b s'. auto.
Qed.



End DualStoreMore.

Section DualStoreWitnesses.

Lemma dual_del_needs_cache_entry_witness :
  let s := {| DualStorage.__cache := []; DualStorage.__file := fs_entry_x |} in
  DualStorage.has "x" None s = (Returned true, s) /\
  DualStorage.del "x" None s = (Returned false, s).
Proof.
  cbv zeta. split; [vm_compute; reflexivity|].
  exact (dual_del_needs_cache_entry "x" None
           {| DualStorage.__cache := []; DualStorage.__file := fs_entry_x |} eq_refl).
Defined.

Lemma dual_set_noFile_writes_cache_witness :
  let s := {| DualStorage.__cache := []; DualStorage.__file := fs_empty_store |} in
  DualStorage.set "x" (VNum 5) (Some only_noFile) s =
    (Returned false,
     {| DualStorage.__cache := cache_entry_x (VNum 5);
        DualStorage.__file := fs_empty_store |}).
Proof.
  exact (proj1 (dual_set_noFile_writes_cache (J := NodeJSON) "x" (VNum 5)
                  (Some only_noFile)
                  {| DualStorage.__cache := []; DualStorage.__file := fs_empty_store |}
                  eq_refl eq_refl)).
Defined.



End DualStoreWitnesses.

(* ===================================================================== *)
(** ** Client set-up, identifiers of actions, builders *)
(* ===================================================================== *)

Section ClientSetup.

(** After the constructor has run on the fresh cache, every setting that
    the client, the clock and the command manager read back is there: the
    configured value, or the default where the field was left out. *)
Theorem constructor_fills_cache (config : BotClient.Config) :
  let c := snd (BotClient.constructor config []) in
  let stored key := fst (CacheStorage.get key None c) in
  fst (BotClient.constructor config []) = Returned tt /\
  stored "token" = Returned (VStr (BotClient.token config)) /\
  stored "cmd_guilds" =
    Returned (VArr (List.map VStr (default [] (BotClient.devGuilds config)))) /\
  stored "cmd_global" =
    Returned (VBool (default false (BotClient.globalUpdate config))) /\
  stored "log_color" =
    Returned (VStr (default "#5865F2" (BotClient.color config))) /\
  stored "log_name" =
    Returned (VStr (default "Discord Bot" (BotClient.name config))) /\
  stored "log_store" =
    Returned (VBool (default false (BotClient.saveLogs config))) /\
  stored "log_silent" =
    Returned (VBool (default false (BotClient.silent config))) /\
  stored "log_version" = Returned (VStr (BotClient.log_version config)) /\
  stored "clock_delay" =
    Returned (VNum (default 30000 (BotClient.clockInterval config))) /\
  List.length c = 9%nat.
Proof. cbv zeta. repeat split. Qed.

End ClientSetup.

Section ActionIdentifiers.

Lemma rev_cons a s : String.rev (String a s) = String.rev s +:+ String a "".
Proof. unfold String.rev at 1. simpl. apply rev_app_spec. Qed.

Lemma includes_rev s c : JsString.includes (String.rev s) c = JsString.includes s c.
Proof.
  induction s as [|a s IH]; [reflexivity|].
  rewrite rev_cons, includes_app, IH. simpl. rewrite orb_false_r. apply orb_comm.
Qed.

(** A string without the separator is its own single segment. *)
Lemma split_go_no_separator c s : forall cur,
  JsString.includes s c = false ->
  JsString.split_go c cur s = [String.rev cur +:+ s].
Proof.
  induction s as [|a s IH]; intros cur H; simpl in *.
  - by rewrite append_empty_r.
  - apply orb_false_iff in H as [Ha Hs]. rewrite Ha, (IH _ Hs), rev_cons.
    by rewrite append_assoc.
Qed.

Lemma split_go_separator c a b : forall cur,
  JsString.includes a c = false ->
  JsString.split_go c cur (a +:+ String c b) =
  (String.rev cur +:+ a) :: JsString.split_go c "" b.
Proof.
  induction a as [|x a IH]; intros cur H.
  - rewrite append_nil_l, append_empty_r. simpl. by rewrite Ascii.eqb_refl.
  - simpl in H. apply orb_false_iff in H as [Hx Ha].
    rewrite append_cons. simpl. rewrite Hx, (IH _ Ha), rev_cons.
    by rewrite append_assoc.
Qed.

Lemma first_segment_no_separator c s : forall cur,
  JsString.includes cur c = false ->
  JsString.includes (hd "" (JsString.split_go c cur s)) c = false.
Proof.
  induction s as [|a s IH]; intros cur H; simpl.
  - by rewrite includes_rev.
  - destruct (Ascii.eqb a c) eqn:E; simpl.
    + by rewrite includes_rev.
    + apply IH. simpl. by rewrite E.
Qed.

Lemma rawId_of_no_separator id :
  JsString.includes (ActionManager.rawId_of id) ";" = false.
Proof.
  unfold ActionManager.rawId_of, ActionManager.first_segment, JsString.split.
  destruct (JsString.includes id ";") eqn:E; [|exact E].
  by apply first_segment_no_separator.
Qed.

Lemma StringMap_get_absent {T} key (m : StringMap.t T) :
  StringMap.has key m = false -> StringMap.get key m = None.
Proof.
  induction m as [|[k w] m IH]; simpl; [done|].
  destruct (String.eqb k key); [discriminate | exact IH].
Qed.

Lemma StringMap_delete_absent {T} key (m : StringMap.t T) :
  StringMap.has key m = false -> StringMap.delete key m = m.
Proof.
  induction m as [|[k w] m IH]; simpl; [done|].
  destruct (String.eqb k key); [discriminate|]. intros H. by rewrite IH.
Qed.

Lemma StringMap_get_set {T} key (v : T) m :
  StringMap.has key (StringMap.set key v m) = true /\
  StringMap.get key (StringMap.set key v m) = Some v.
Proof.
  induction m as [|[k w] m IH]; simpl.
  - by rewrite String.eqb_refl.
  - destruct (String.eqb k key) eqn:E; simpl; rewrite E; auto.
Qed.

Lemma StringMap_set_other {T} key key' (v : T) m :
  key <> key' ->
  StringMap.has key' (StringMap.set key v m) = StringMap.has key' m /\
  StringMap.get key' (StringMap.set key v m) = StringMap.get key' m.
Proof.
  intros Hne. induction m as [|[k w] m IH]; simpl.
  - destruct (String.eqb_spec key key'); [done | auto].
  - destruct (String.eqb_spec k key) as [->|Hk]; simpl.
    + destruct (String.eqb_spec key key'); [done | auto].
    + destruct (String.eqb k key'); auto.
Qed.

Lemma create_is_set {Callback} id (cb : Callback) m :
  ActionManager.create id cb m = StringMap.set (ActionManager.rawId_of id) cb m.
Proof.
  unfold ActionManager.create.
  destruct (StringMap.has _ m) eqn:E; simpl; [reflexivity|].
  by rewrite StringMap_delete_absent.
Qed.

(** The listener of the button, modal and select menu managers cuts the
    custom identifier down to its first segment before it calls [invoke],
    and [invoke] takes the data from what it is given: the data of the
    context is empty for every custom identifier, whatever follows the
    first semicolon. *)
Theorem listener_drops_data {Callback} (customId : string)
    (callbacks : StringMap.t Callback) :
  ActionManager.invoke_context (ActionManager.rawId_of customId) =
    (ActionManager.rawId_of customId, []) /\
  ActionManager.on_component_interaction customId callbacks =
    match StringMap.get (ActionManager.rawId_of customId) callbacks with
    | Some callback => Some (callback, [])
    | None => None
    end.
Proof.
  pose proof (rawId_of_no_separator customId) as H.
  assert (ActionManager.invoke_context (ActionManager.rawId_of customId) =
          (ActionManager.rawId_of customId, [])) as Hc.
  { unfold ActionManager.invoke_context.
    unfold ActionManager.rawId_of at 1. rewrite H.
    unfold JsString.split. rewrite (split_go_no_separator _ _ _ H). reflexivity. }
  split; [exact Hc|].
  unfold ActionManager.on_component_interaction, ActionManager.invoke.
  rewrite Hc. destruct (StringMap.has _ callbacks) eqn:E; [reflexivity|].
  by rewrite StringMap_get_absent.
Qed.

(** Called directly with the identifier a builder produced, [invoke] does
    recover the identifier and the data, when neither holds a semicolon
    and the two fit into a hundred characters. *)
Theorem builder_id_invoke_roundtrip (id data : string) :
  JsString.includes id ";" = false ->
  JsString.includes data ";" = false ->
  data <> "" ->
  JsString.length (id +:+ ";" +:+ data) <= 100 ->
  ActionManager.invoke_context (ButtonBuilder.id id (Some data)) = (id, [data]).
Proof.
  intros Hi Hd Hne Hlen. unfold ButtonBuilder.id.
  apply String.eqb_neq in Hne. rewrite Hne.
  apply Z.leb_le in Hlen. rewrite Hlen. simpl andb. cbv iota.
  change (id +:+ ";" +:+ data) with (id +:+ String ";" data).
  unfold ActionManager.invoke_context, ActionManager.rawId_of,
    ActionManager.first_segment, JsString.split.
  rewrite includes_app. simpl JsString.includes. rewrite orb_true_r.
  rewrite (split_go_separator _ _ _ _ Hi), (split_go_no_separator _ _ _ Hd).
  reflexivity.
Qed.

Lemma builder_id_invoke_roundtrip_witness :
  ActionManager.invoke_context (ButtonBuilder.id "vote" (Some "42")) =
    ("vote", ["42"]).
Proof.
  apply (builder_id_invoke_roundtrip "vote" "42");
    first [reflexivity | discriminate].
Defined.

(** The identifier a builder sets starts with the given identifier and
    never grows beyond a hundred characters: data that would not fit is
    left out. *)
Theorem builder_id_bounded (id : string) (data : option string) :
  JsString.startsWith (ButtonBuilder.id id data) id = true /\
  (JsString.length id <= 100 ->
   JsString.length (ButtonBuilder.id id data) <= 100).
Proof.
  assert (JsString.startsWith id id = true) as Hid.
  { unfold JsString.startsWith. rewrite <- (append_empty_r id) at 2.
    apply prefix_append. }
  unfold ButtonBuilder.id. destruct data as [d|]; [|by split].
  destruct (negb (String.eqb d "")); simpl; [|by split].
  destruct (Z.leb_spec (JsString.length (id +:+ ";" +:+ d)) 100); [|by split].
  split; [apply prefix_append | done].
Qed.

Lemma builder_id_bounded_witness :
  JsString.length "vote" <= 100 /\
  JsString.length
    (ButtonBuilder.id "vote"
       (Some "0123456789012345678901234567890123456789012345678901234567890123456789012345678901234567890123456789"))
  <= 100.
Proof.
  split; [vm_compute; discriminate|].
  apply (proj2 (builder_id_bounded "vote" _)). vm_compute. discriminate.
Defined.

(** [create] registers the callback under the first segment of the
    identifier, replaces what was registered there and leaves every other
    registration alone; [invoke] then finds it for every identifier with
    that first segment. *)
Theorem create_registers {Callback} (id : string) (cb : Callback)
    (callbacks : StringMap.t Callback) :
  let callbacks' := ActionManager.create id cb callbacks in
  StringMap.get (ActionManager.rawId_of id) callbacks' = Some cb /\
  (forall other, other <> ActionManager.rawId_of id ->
     StringMap.get other callbacks' = StringMap.get other callbacks) /\
  (forall id', ActionManager.rawId_of id' = ActionManager.rawId_of id ->
     ActionManager.invoke id' callbacks' =
       Some (cb, tl (JsString.split id' ";"))).
Proof.
  cbv zeta. rewrite create_is_set.
  destruct (StringMap_get_set (ActionManager.rawId_of id) cb callbacks) as [Hh Hg].
  repeat split.
  - exact Hg.
  - intros other Hne. apply StringMap_set_other. congruence.
  - intros id' Hid. unfold ActionManager.invoke, ActionManager.invoke_context.
    rewrite Hid, Hh, Hg. reflexivity.
Qed.

Lemma create_registers_witness :
  ActionManager.invoke "vote;42;7"
    (ActionManager.create "vote;ignored" 1%nat [("vote", 0%nat)]) =
  Some (1%nat, ["42"; "7"]).
Proof.
  exact (proj2 (proj2 (create_registers "vote;ignored" 1%nat [("vote", 0%nat)]))
           "vote;42;7" eq_refl).
Defined.

(** The managers with definitions: [create] for an identifier without a
    definition throws [Missing definition: <raw id>] and registers nothing;
    after [define], [create] returns and the callback is registered. *)
Theorem defined_create {Callback D} (id : string) (d : D) (cb : Callback)
    (s : @DefinedActionManager.state Callback D) :
  (StringMap.has (ActionManager.rawId_of id) (DefinedActionManager._definitions s)
     = false ->
   DefinedActionManager.create id cb s =
     (Thrown (UserError ("Missing definition: " +:+ ActionManager.rawId_of id)), s)) /\
  (exists s',
     (let* _ := DefinedActionManager.define id d in
      DefinedActionManager.create id cb) s = (Returned tt, s') /\
     StringMap.get (ActionManager.rawId_of id) (DefinedActionManager._definitions s')
       = Some d /\
     StringMap.get (ActionManager.rawId_of id) (DefinedActionManager._callbacks s')
       = Some cb).
Proof.
  split.
  - intros H. unfold DefinedActionManager.create. rewrite H. reflexivity.
  - unfold bind, DefinedActionManager.define, DefinedActionManager.create.
    cbn [DefinedActionManager._definitions DefinedActionManager._callbacks].
    set (raw := ActionManager.rawId_of id).
    set (defs := if StringMap.has raw (DefinedActionManager._definitions s)
                 then StringMap.delete raw (DefinedActionManager._definitions s)
                 else DefinedActionManager._definitions s).
    destruct (StringMap_get_set raw d defs) as [Hh Hg]. rewrite Hh.
    eexists. split; [reflexivity|]. simpl. split; [exact Hg|].
    rewrite create_is_set.
    assert (ActionManager.rawId_of raw = raw) as ->.
    { unfold ActionManager.rawId_of at 1. unfold raw.
      by rewrite rawId_of_no_separator. }
    apply StringMap_get_set.
Qed.

Lemma defined_create_witness :
  DefinedActionManager.create (D := string) "ping" 1%nat
    {| DefinedActionManager._definitions := [];
       DefinedActionManager._callbacks := [] |} =
  (Thrown (UserError "Missing definition: ping"),
   {| DefinedActionManager._definitions := [];
      DefinedActionManager._callbacks := [] |}).
Proof.
  exact (proj1 (defined_create "ping" "" 1%nat
                  {| DefinedActionManager._definitions := [];
                     DefinedActionManager._callbacks := [] |}) eq_refl).
Defined.

End ActionIdentifiers.

Section Builders.

(** The last five elements of a list. *)
Lemma last5_append_one {A} (l : list A) (x : A) :
  skipn (length (skipn (length l - 5) l ++ [x]) - 5) (skipn (length l - 5) l ++ [x]) =
  skipn (length (l ++ [x]) - 5) (l ++ [x]).
Proof.
  rewrite !length_app, length_skipn. simpl length.
  destruct (le_lt_dec (length l) 5) as [Hle|Hgt].
  - replace (length l - 5)%nat with 0%nat by lia. simpl skipn.
    replace (length l - 0 + 1 - 5)%nat with (length l + 1 - 5)%nat by lia.
    reflexivity.
  - replace (length l - (length l - 5) + 1 - 5)%nat with 1%nat by lia.
    replace (length l + 1 - 5)%nat with (S (length l - 5)) by lia.
    rewrite !skipn_app, !length_skipn.
    replace (1 - (length l - (length l - 5)))%nat with 0%nat by lia.
    replace (S (length l - 5) - length l)%nat with 0%nat by lia.
    simpl (skipn 0 _). f_equal. rewrite skipn_skipn. f_equal.
Qed.

Lemma modal_field_last5 {Field Row} (row_of : Field -> Row) f (rows : list Row) :
  (length rows <= 5)%nat ->
  ModalBuilder.field row_of f rows =
  skipn (length (rows ++ [row_of f]) - 5) (rows ++ [row_of f]).
Proof.
  intros H. unfold ModalBuilder.field. rewrite length_app. simpl length.
  destruct (Z.leb_spec 5 (Z.of_nat (length rows))).
  - replace (length rows + 1 - 5)%nat with 1%nat by lia.
    destruct rows; [simpl in *; lia | reflexivity].
  - replace (length rows + 1 - 5)%nat with 0%nat by lia. reflexivity.
Qed.

Lemma modal_fields_from {Field Row} (row_of : Field -> Row) fs : forall pre,
  fold_left (fun rows f => ModalBuilder.field row_of f rows) fs
    (skipn (length (List.map row_of pre) - 5) (List.map row_of pre)) =
  skipn (length (List.map row_of (pre ++ fs)) - 5) (List.map row_of (pre ++ fs)).
Proof.
  induction fs as [|f fs IH]; intros pre; simpl.
  - by rewrite app_nil_r.
  - rewrite modal_field_last5 by (rewrite length_skipn; lia).
    rewrite last5_append_one.
    replace (List.map row_of pre ++ [row_of f]) with (List.map row_of (pre ++ [f]))
      by (by rewrite map_app).
    rewrite IH, <- app_assoc. reflexivity.
Qed.

(** [fields] of the modal builder keeps the last five fields, in order, one
    row each: a modal never gets more than five rows, and from a longer list
    the first fields are dropped without notice. *)
Theorem modal_fields_keep_last_five {Field Row} (row_of : Field -> Row)
    (fs : list Field) :
  ModalBuilder.fields row_of fs = List.map row_of (skipn (length fs - 5) fs) /\
  length (ModalBuilder.fields row_of fs) = Nat.min (length fs) 5.
Proof.
  assert (ModalBuilder.fields row_of fs =
          List.map row_of (skipn (length fs - 5) fs)) as E.
  { unfold ModalBuilder.fields.
    pose proof (modal_fields_from row_of fs []) as H. simpl in H. rewrite H.
    rewrite length_map. apply skipn_map. }
  split; [exact E|]. rewrite E, length_map, length_skipn. lia.
Qed.

Lemma build_continues_step {Item} (row_of : list Item -> Item) rows :
  ComponentBuilder.build_continues rows = true ->
  ComponentBuilder.build_continues (ComponentBuilder.build_step row_of rows) = true.
Proof.
  unfold ComponentBuilder.build_continues, ComponentBuilder.build_step.
  intros [H1 H2]%andb_true_iff. apply Z.ltb_lt in H1, H2.
  rewrite skipn_all2 by lia. reflexivity.
Qed.

(** [build] of the component builder: with no component, or with five or
    more, it returns at once, and what it returns is the empty list; with
    one to four components its loop never ends, however many turns it is
    given.  It never returns a row. *)
Theorem component_build_never_builds {Item Row} (row_of : list Item -> Item)
    (fuel : nat) (components : list Item) :
  ComponentBuilder.build (Row := Row) row_of fuel components =
    if ComponentBuilder.build_continues components then None else Some [].
Proof.
  unfold ComponentBuilder.build.
  destruct (ComponentBuilder.build_continues components) eqn:E.
  - revert components E. induction fuel as [|fuel IH]; intros rows E; simpl.
    + by rewrite E.
    + rewrite E. apply IH. by apply build_continues_step.
  - destruct fuel; simpl; by rewrite E.
Qed.

End Builders.
